(** * milter-addmessageid: the session state machine and the Message-ID generator

    A shallow embedding of [src/milter-addmessageid.py]: the class
    [MessageIDMilter] ([__init__], [log], the callbacks [header], [eob],
    [close], [abort], and the generator [create_messageid]) and
    [run_messageidmilter] with its signal handler.

    Python values are modelled as the interpreter has them:
    - [bytes] is a list of bytes, [str] a list of Unicode code points;
    - an instance is its [__dict__], a finite map from attribute names to
      values; the class has a [__dict__] of its own, and attribute lookup
      through [self] consults the instance first and the class second;
    - exceptions are explicit results. *)

From Stdlib Require Import ZArith NArith List Ascii String Strings.Byte.
From Stdlib Require Import Decimal DecimalString DecimalZ Lia.
From stdpp Require Import base option list strings gmap.

Local Open Scope N_scope.

(** ** Byte strings and text *)

Abbreviation bytes := (list byte).

(** A [str] is a sequence of code points. *)
Abbreviation pystr := (list N).

#[global] Instance byte_eq_dec : EqDecision byte := Byte.byte_eq_dec.

(** A bytes literal of the source. *)
Definition bytes_lit (s : string) : bytes := list_byte_of_string s.

(** A text literal of the source (ASCII). *)
Definition str_lit (s : string) : pystr := map N_of_ascii (list_ascii_of_string s).

Definition byte_of_N (n : N) : byte := default "000"%byte (Byte.of_N n).

Definition is_ascii_upper (c : byte) : bool :=
  (65 <=? Byte.to_N c) && (Byte.to_N c <=? 90).

(** [bytes.lower()]: the ASCII letters [A]..[Z] are mapped to [a]..[z],
    every other byte is kept. *)
Definition byte_lower (c : byte) : byte :=
  if is_ascii_upper c then byte_of_N (Byte.to_N c + 32) else c.

Definition bytes_lower (s : bytes) : bytes := map byte_lower s.

(** The lowercase digit table 0123456789abcdef of [bytes.hex()] and [repr]. *)
Definition hexdigit (n : N) : N := if n <? 10 then 48 + n else 87 + n.

Definition byte_hex (c : byte) : pystr :=
  [hexdigit (Byte.to_N c / 16); hexdigit (Byte.to_N c mod 16)].

(** [bytes.hex()] *)
Definition bytes_hex (s : bytes) : pystr := flat_map byte_hex s.

(** [str(n)] for an [int]. *)
Definition int_str (z : Z) : pystr := str_lit (NilZero.string_of_int (Z.to_int z)).

(** One code point of [str.encode] for utf8; [None] is [UnicodeEncodeError]
    (a lone surrogate). Code points above [0x10FFFF] do not occur in a [str]
    and are refused as well. *)
Definition utf8_char (c : N) : option bytes :=
  if c <? 0x80 then Some [byte_of_N c]
  else if c <? 0x800 then
    Some [byte_of_N (N.lor 0xC0 (N.shiftr c 6));
          byte_of_N (N.lor 0x80 (N.land c 0x3F))]
  else if c <? 0x10000 then
    if (0xD800 <=? c) && (c <=? 0xDFFF) then None
    else Some [byte_of_N (N.lor 0xE0 (N.shiftr c 12));
               byte_of_N (N.lor 0x80 (N.land (N.shiftr c 6) 0x3F));
               byte_of_N (N.lor 0x80 (N.land c 0x3F))]
  else if c <? 0x110000 then
    Some [byte_of_N (N.lor 0xF0 (N.shiftr c 18));
          byte_of_N (N.lor 0x80 (N.land (N.shiftr c 12) 0x3F));
          byte_of_N (N.lor 0x80 (N.land (N.shiftr c 6) 0x3F));
          byte_of_N (N.lor 0x80 (N.land c 0x3F))]
  else None.

(** [s.encode] for utf8 *)
Fixpoint encode_utf8 (s : pystr) : option bytes :=
  match s with
  | [] => Some []
  | c :: s' =>
      match utf8_char c, encode_utf8 s' with
      | Some e, Some r => Some (e ++ r)
      | _, _ => None
      end
  end.

(** [repr] of a [bytes] object, which is what [{!s}] formats it to: the
    quote is the apostrophe (39) unless the value holds an apostrophe and no
    double quote (34), then it is the double quote. *)
Definition repr_quote (s : bytes) : N :=
  if existsb (fun c => Byte.to_N c =? 39) s && negb (existsb (fun c => Byte.to_N c =? 34) s)
  then 34 else 39.

Definition repr_byte (quote : N) (c : byte) : pystr :=
  let n := Byte.to_N c in
  if (n =? quote) || (n =? 92) then [92; n]
  else if n =? 9 then [92; 116]
  else if n =? 10 then [92; 110]
  else if n =? 13 then [92; 114]
  else if (n <? 32) || (127 <=? n) then [92; 120; hexdigit (n / 16); hexdigit (n mod 16)]
  else [n].

Definition bytes_repr (s : bytes) : pystr :=
  let quote := repr_quote s in
  [98; quote] ++ flat_map (repr_byte quote) s ++ [quote].

(** Every byte, in order; used to settle facts about single bytes by
    evaluation. *)
Definition all_bytes : list byte := omap Byte.of_N (N.of_nat <$> seq 0 256).

(** Byte-wise case-insensitive equality, stated on its own terms: two byte
    strings of the same length whose bytes agree position by position,
    either exactly or as the upper- and lowercase form of one ASCII letter. *)
Definition byte_caseless_eqb (x y : byte) : bool :=
  bool_decide (x = y)
  || (is_ascii_upper x && (Byte.to_N y =? Byte.to_N x + 32))
  || (is_ascii_upper y && (Byte.to_N x =? Byte.to_N y + 32)).

Definition byte_caseless_eq (x y : byte) : Prop := byte_caseless_eqb x y = true.

Definition caseless_eq (s t : bytes) : Prop := Forall2 byte_caseless_eq s t.

#[global] Instance caseless_eq_dec (s t : bytes) : Decision (caseless_eq s t).
Proof. unfold caseless_eq, byte_caseless_eq. apply _. Defined.

(** The shapes of the generated identifier. *)
Definition is_decimal_digit (c : N) : Prop := 48 <= c <= 57.

Definition is_lower_hex (c : N) : Prop := 48 <= c <= 57 \/ 97 <= c <= 102.

(** Text that [encode] accepts: no lone surrogate in it. *)
Definition encodable (s : pystr) : Prop := is_Some (encode_utf8 s).

(** The token after the at sign: the host name, or the fallback drawn when
    the system reports none. *)
Definition domain_token (fqdn : pystr) (fallback : bytes) : pystr :=
  if decide (fqdn = []) then bytes_hex fallback else fqdn.

(** ** Objects, classes and attribute access *)

Abbreviation oid := nat.

(** The interpreter state the class touches: the [__dict__] of the class
    and the [__dict__] of every instance, by object identity. Only the
    attributes this class defines are tracked, so an instance to which none
    of them has been assigned yet, a new one in particular, has an empty
    entry. *)
Record World := {
  cls_dict : gmap string bool;
  objs : gmap oid (gmap string bool)
}.

Definition inst_dict (w : World) (self : oid) : gmap string bool :=
  default ∅ (objs w !! self).

(** [self.name]: the instance first, the class second; [None] is
    [AttributeError]. *)
Definition getattr (w : World) (self : oid) (name : string) : option bool :=
  match inst_dict w self !! name with
  | Some v => Some v
  | None => cls_dict w !! name
  end.

(** [self.name = v]: always binds in the instance, never in the class. *)
Definition setattr (w : World) (self : oid) (name : string) (v : bool) : World :=
  {| cls_dict := cls_dict w;
     objs := <[self := <[name := v]> (inst_dict w self)]> (objs w) |}.

(** The class body: [has_messageid = False]. *)
Definition MessageIDMilter_dict : gmap string bool := {[ "has_messageid"%string := false ]}.

(** The interpreter once the module is loaded, before any connection. *)
Definition initial_world : World :=
  {| cls_dict := MessageIDMilter_dict; objs := ∅ |}.

(** ** What the callbacks exchange with libmilter and the system *)

(** libmilter's response constants. *)
Inductive verdict := CONTINUE | ACCEPT | REJECT | TEMPFAIL | DISCARD.

(** The macro dictionary libmilter hands to every callback; never read. *)
Abbreviation cmd_dict := (list (bytes * bytes)).

(** Calls that leave the object: writes to [sys.stdout] and [self.addHeader]. *)
Inductive event :=
| StdoutWrite (text : pystr)
| StdoutFlush
| AddHeader (key val : bytes).

Inductive exn :=
| AttributeError (name : string)
| UnicodeEncodeError.

Inductive outcome (A : Type) :=
| Return (a : A)
| Raise (e : exn).
Arguments Return {A} a.
Arguments Raise {A} e.

(** What [create_messageid] reads from the system in one call. *)
Record Env := {
  time_us : Z;          (* int(time.time() * 1000000) *)
  urandom_1 : bytes;    (* the first os.urandom(8) *)
  urandom_2 : bytes;    (* the second os.urandom(8), drawn only without a fqdn *)
  getfqdn : pystr       (* socket.getfqdn() *)
}.

(** ** class MessageIDMilter *)

(** [log]: print the message to stdout and flush. *)
Definition log (message : pystr) : list event :=
  [StdoutWrite (message ++ [10]); StdoutFlush].

Definition header (w : World) (self : oid) (key val : bytes) (cmdDict : cmd_dict)
  : World * verdict :=
  let w' := if decide (bytes_lower key = bytes_lit "message-id")
            then setattr w self "has_messageid" true
            else w in
  (w', CONTINUE).

Definition create_messageid (env : Env) : option bytes :=
  let microseconds := int_str (time_us env) in
  let random_part := bytes_hex (urandom_1 env) in
  let fqdn := getfqdn env in
  let fqdn := match fqdn with
              | [] => bytes_hex (urandom_2 env)
              | _ => fqdn
              end in
  let message_id := str_lit " <" ++ microseconds ++ str_lit "." ++ random_part
                    ++ str_lit "@" ++ fqdn ++ str_lit ">" in
  encode_utf8 message_id.

Definition eob_log_message (key val : bytes) : pystr :=
  str_lit "Message without Message-ID received. Adding header: "
  ++ bytes_repr key ++ str_lit " with value " ++ bytes_repr val.

Definition eob (w : World) (self : oid) (cmdDict : cmd_dict) (env : Env)
  : outcome verdict * World * list event :=
  match getattr w self "has_messageid" with
  | None => (Raise (AttributeError "has_messageid"), w, [])
  | Some true => (Return CONTINUE, setattr w self "has_messageid" false, [])
  | Some false =>
      let key := bytes_lit "Message-ID" in
      match create_messageid env with
      | None => (Raise UnicodeEncodeError, w, [])
      | Some val =>
          (Return CONTINUE, w, log (eob_log_message key val) ++ [AddHeader key val])
      end
  end.

Definition close (w : World) (self : oid) : World :=
  setattr w self "has_messageid" false.

Definition abort (w : World) (self : oid) : World :=
  setattr w self "has_messageid" false.

(** ** The callbacks as libmilter dispatches them *)

Inductive callback :=
| Header (key val : bytes)
| Eob
| Abort
| Close.

(** One dispatched callback; the result is the value the method returns,
    [None] for a method that ends without a return statement. *)
Definition dispatch (w : World) (self : oid) (cmdDict : cmd_dict) (env : Env) (cb : callback)
  : outcome (option verdict) * World * list event :=
  match cb with
  | Header key val =>
      let '(w', v) := header w self key val cmdDict in (Return (Some v), w', [])
  | Eob =>
      match eob w self cmdDict env with
      | (Return v, w', out) => (Return (Some v), w', out)
      | (Raise e, w', out) => (Raise e, w', out)
      end
  | Abort => (Return None, abort w self, [])
  | Close => (Return None, close w self, [])
  end.

(** The header phase of one message: one [header] callback per header. *)
Definition scan_headers (w : World) (self : oid) (cmdDict : cmd_dict)
    (hs : list (bytes * bytes)) : World :=
  fold_left (fun w h => fst (header w self (fst h) (snd h) cmdDict)) hs w.

(** One whole message: its headers, then end of message. *)
Definition transaction (w : World) (self : oid) (cmdDict : cmd_dict) (env : Env)
    (hs : list (bytes * bytes)) : outcome verdict * World * list event :=
  eob (scan_headers w self cmdDict hs) self cmdDict env.

(** The header injections among the calls made. *)
Definition injections (out : list event) : list (bytes * bytes) :=
  omap (fun e => match e with AddHeader k v => Some (k, v) | _ => None end) out.

(** What one session lets an observer see of a callback: the result, the
    calls made, and the flag the session reads afterwards. *)
Definition observation {A} (self : oid) (r : outcome A * World * list event)
  : outcome A * list event * option bool :=
  (fst (fst r), snd r, getattr (snd (fst r)) self "has_messageid").

(** ** run_messageidmilter: provisioning the socket directory *)

(** The [OSError] subclasses [os.mkdir] raises. *)
Inductive oserror :=
| FileExistsError
| FileNotFoundError
| PermissionError
| NotADirectoryError
| OtherOSError (errno : nat).

(** How the start of [run_messageidmilter] goes on after the guarded
    [os.mkdir]: on to building the factory, or out with the exception. *)
Inductive startup :=
| Proceed
| StartupError (e : oserror).

(** The first statement of [run_messageidmilter]:
    [try: os.mkdir(socketpath, 0o755) except OSError: pass], given what
    [os.mkdir] did ([None]: the directory was made). *)
Definition run_messageidmilter_mkdir (mkdir : option oserror) : startup :=
  match mkdir with
  | None => Proceed
  | Some _ => Proceed
  end.

(** The provisioning as the specification words it: only the
    already-exists condition is ignored, every other failure is a startup
    error. *)
Definition run_messageidmilter_mkdir_spec (mkdir : option oserror) : startup :=
  match mkdir with
  | None => Proceed
  | Some FileExistsError => Proceed
  | Some e => StartupError e
  end.

(** ** Interleaved sessions *)

(** A schedule: callbacks of several sessions in the order libmilter's
    threads happen to deliver them, each with what the system would answer
    to [create_messageid] at that moment. *)
Definition run_schedule (w : World) (cmdDict : cmd_dict)
    (sched : list (oid * callback * Env)) : World :=
  fold_left (λ w s, snd (fst (dispatch w (fst (fst s)) cmdDict (snd s) (snd (fst s)))))
            sched w.

(** The part of a schedule addressed to one session. *)
Definition schedule_of (j : oid) (sched : list (oid * callback * Env))
  : list (oid * callback * Env) :=
  filter (λ s, fst (fst s) = j) sched.

(** ** Sample inputs *)

Definition sample_env : Env :=
  {| time_us := 1700000000123456;
     urandom_1 := [x01; x23; x45; x67; x89; xab; xcd; xef];
     urandom_2 := [x00; x11; x22; x33; x44; x55; x66; x77];
     getfqdn := str_lit "mail.example.org" |}.

(** The same moment with another first draw. *)
Definition sample_env_redrawn : Env :=
  {| time_us := 1700000000123456;
     urandom_1 := [x01; x23; x45; x67; x89; xab; xcd; xee];
     urandom_2 := [x00; x11; x22; x33; x44; x55; x66; x77];
     getfqdn := str_lit "mail.example.org" |}.

(** A host that reports no name. *)
Definition sample_env_nameless : Env :=
  {| time_us := 1700000000123456;
     urandom_1 := [x01; x23; x45; x67; x89; xab; xcd; xef];
     urandom_2 := [x00; x11; x22; x33; x44; x55; x66; x77];
     getfqdn := [] |}.

Definition sample_id : bytes :=
  bytes_lit " <1700000000123456.0123456789abcdef@mail.example.org>".

Definition plain_headers : list (bytes * bytes) :=
  [(bytes_lit "From", bytes_lit "a@b"); (bytes_lit "To", bytes_lit "c@d")].

Definition tagged_headers : list (bytes * bytes) :=
  [(bytes_lit "From", bytes_lit "a@b"); (bytes_lit "MESSAGE-Id", bytes_lit "<x@y>")].

(** * The rest of the module *)

(** ** A session as the flag alone *)

(** The test [header] makes on a name. *)
Definition name_matches (key : bytes) : bool :=
  bool_decide (caseless_eq key (bytes_lit "message-id")).

(** The flag after one callback, read off the four methods. *)
Definition flag_step (b : bool) (cb : callback) : bool :=
  match cb with
  | Header key _ => b || name_matches key
  | Eob | Abort | Close => false
  end.

(** The header injection a callback asks for when it meets the flag [b]. *)
Definition flag_injection (b : bool) (cb : callback) (env : Env) : list (bytes * bytes) :=
  match cb, b with
  | Eob, false => from_option (λ val, [(bytes_lit "Message-ID", val)]) [] (create_messageid env)
  | _, _ => []
  end.

Fixpoint flag_run (b : bool) (cbs : list (callback * Env)) : bool * list (bytes * bytes) :=
  match cbs with
  | [] => (b, [])
  | (cb, env) :: rest =>
      let '(b', inj) := flag_run (flag_step b cb) rest in
      (b', flag_injection b cb env ++ inj)
  end.

(** The callbacks of one connection in the order libmilter delivers them;
    an exception ends the run where it is raised. *)
Fixpoint run_callbacks (w : World) (self : oid) (cmdDict : cmd_dict)
    (cbs : list (callback * Env)) : outcome unit * World * list event :=
  match cbs with
  | [] => (Return tt, w, [])
  | (cb, env) :: rest =>
      match dispatch w self cmdDict env cb with
      | (Return _, w', out) =>
          let '(r, w'', out') := run_callbacks w' self cmdDict rest in
          (r, w'', out ++ out')
      | (Raise e, w', out) => (Raise e, w', out)
      end
  end.

(** The callbacks of one message that is delivered whole. *)
Definition message_callbacks (hs : list (bytes * bytes)) (env : Env)
  : list (callback * Env) :=
  map (λ h, (Header (fst h) (snd h), env)) hs ++ [(Eob, env)].

(** Does a header list hold a Message-ID, as [header] tests it? *)
Definition has_messageid_header (hs : list (bytes * bytes)) : bool :=
  existsb (λ h, name_matches (fst h)) hs.

(** Printable ASCII, the space included. *)
Definition is_printable (c : N) : Prop := 32 <= c <= 126.

(** ** __init__ *)

(** [__init__(self, opts=0, protos=lm.SMFIP_ALLPROTOS ^ lm.SMFIP_NOHDRS)]:
    the arguments it hands on to [lm.MilterProtocol.__init__]. The two
    libmilter constants are parameters; [None] is an argument left out. *)
Definition MessageIDMilter_init (SMFIP_ALLPROTOS SMFIP_NOHDRS : N)
    (opts protos : option N) : N * N :=
  (default 0 opts, default (N.lxor SMFIP_ALLPROTOS SMFIP_NOHDRS) protos).

(** ** run_messageidmilter *)

Inductive signal_number := SIGINT | SIGQUIT | SIGTERM.

(** Exceptions as far as the [except Exception] clause of
    [run_messageidmilter] tells them apart: [SystemExit] and
    [KeyboardInterrupt] derive from [BaseException] only, the others are
    instances of [Exception]. *)
Inductive pyexc :=
| SystemExit (code : Z)
| KeyboardInterrupt
| OSError (e : oserror)
| OtherException (name : string).

Definition is_Exception (e : pyexc) : bool :=
  match e with
  | OSError _ | OtherException _ => true
  | SystemExit _ | KeyboardInterrupt => false
  end.

(** What the process does to the outside. *)
Inductive proc_event :=
| OsMkdir (path : pystr) (mode : N)
| NewThreadFactory (sockname : pystr) (opts : N)
| SignalSignal (signum : signal_number)
| FactoryRun
| FactoryClose
| StderrWrite (text : pystr)
| StderrFlush.

(** The nested [sighandler]: [factory.close()], then [sys.exit(1)], which
    raises [SystemExit(1)]. *)
Definition sighandler (signum : signal_number) : list proc_event * pyexc :=
  ([FactoryClose], SystemExit 1).

(** [run_messageidmilter], given what [os.mkdir] did and what happened in
    [factory.run()]: the calls made while it ran and how it ended ([None]:
    it returned). The result is the calls made, in order, and the exception
    that leaves the function, if any. [SMFIF_ADDHDRS] is libmilter's
    constant; [exc_info_str] is how [sys.exc_info()] formats, which holds
    a traceback address and is left open. *)
Definition run_messageidmilter (SMFIF_ADDHDRS : N) (exc_info_str : pyexc → pystr)
    (mkdir : option oserror) (run : list proc_event * option pyexc)
  : list proc_event * option pyexc :=
  let socketpath := str_lit "/var/run/milter" in
  match run_messageidmilter_mkdir mkdir with
  | StartupError e => ([OsMkdir socketpath 493], Some (OSError e))
  | Proceed =>
      let socketname := str_lit "messageidmilter" in
      let opts := SMFIF_ADDHDRS in
      let calls :=
        [OsMkdir socketpath 493;
         NewThreadFactory (socketpath ++ str_lit "/" ++ socketname) opts;
         SignalSignal SIGINT; SignalSignal SIGQUIT; SignalSignal SIGTERM;
         FactoryRun] ++ fst run in
      match snd run with
      | None => (calls, None)
      | Some e =>
          if is_Exception e
          then (calls ++ [StderrWrite (str_lit "EXCEPTION OCCURRED: "
                                       ++ exc_info_str e ++ [10]);
                          StderrFlush; FactoryClose], Some e)
          else (calls, Some e)
      end
  end.

(** A signal in [SIGINT], [SIGQUIT], [SIGTERM] that arrives while
    [factory.run()] is blocked: the handler runs there, and its
    [SystemExit] is how [factory.run()] ends. *)
Definition signalled (signum : signal_number) : list proc_event * option pyexc :=
  (fst (sighandler signum), Some (snd (sighandler signum))).

(** How often the factory is closed in a run. *)
Definition factory_closes (calls : list proc_event) : nat :=
  length (List.filter (λ c, match c with FactoryClose => true | _ => false end) calls).

(** ** Reading UTF-8 back *)

(** A continuation byte [10xxxxxx] and its six bits. *)
Definition utf8_cont (b : byte) : option N :=
  let n := Byte.to_N b in
  if (0x80 <=? n) && (n <? 0xC0) then Some (N.land n 0x3F) else None.

(** [bytes.decode] for utf8, strict: overlong forms, surrogates and code
    points beyond [0x10FFFF] are refused. The module never decodes; this is
    the reader against which what [encode_utf8] writes is checked. *)
Fixpoint decode_utf8 (bs : bytes) : option pystr :=
  match bs with
  | [] => Some []
  | b0 :: r0 =>
      let n0 := Byte.to_N b0 in
      if n0 <? 0x80 then cons n0 <$> decode_utf8 r0
      else if n0 <? 0xC0 then None
      else if n0 <? 0xE0 then
        match r0 with
        | b1 :: r1 =>
            c1 ← utf8_cont b1;
            let c := N.lor (N.shiftl (N.land n0 0x1F) 6) c1 in
            if c <? 0x80 then None else cons c <$> decode_utf8 r1
        | _ => None
        end
      else if n0 <? 0xF0 then
        match r0 with
        | b1 :: b2 :: r2 =>
            c1 ← utf8_cont b1;
            c2 ← utf8_cont b2;
            let c := N.lor (N.shiftl (N.land n0 0x0F) 12) (N.lor (N.shiftl c1 6) c2) in
            if (c <? 0x800) || ((0xD800 <=? c) && (c <=? 0xDFFF)) then None
            else cons c <$> decode_utf8 r2
        | _ => None
        end
      else if n0 <? 0xF8 then
        match r0 with
        | b1 :: b2 :: b3 :: r3 =>
            c1 ← utf8_cont b1;
            c2 ← utf8_cont b2;
            c3 ← utf8_cont b3;
            let c := N.lor (N.shiftl (N.land n0 0x07) 18)
                       (N.lor (N.shiftl c1 12) (N.lor (N.shiftl c2 6) c3)) in
            if (c <? 0x10000) || (0x110000 <=? c) then None
            else cons c <$> decode_utf8 r3
        | _ => None
        end
      else None
  end.

(** ** More sample inputs *)

(** A host whose name holds a lone surrogate, as a name that is not UTF-8
    decodes to. *)
Definition sample_env_surrogate : Env :=
  {| time_us := 1700000000123456;
     urandom_1 := [x01; x23; x45; x67; x89; xab; xcd; xef];
     urandom_2 := [x00; x11; x22; x33; x44; x55; x66; x77];
     getfqdn := [109; 0xDC80] |}.

(** A message cut short by an abort after its Message-ID header, then a
    message without one. *)
Definition sample_callbacks : list (callback * Env) :=
  [(Header (bytes_lit "Message-ID") (bytes_lit "<x@y>"), sample_env);
   (Abort, sample_env);
   (Header (bytes_lit "From") (bytes_lit "a@b"), sample_env);
   (Eob, sample_env)].

Definition sample_messages : list (list (bytes * bytes) * Env) :=
  [(plain_headers, sample_env); (tagged_headers, sample_env_redrawn);
   (plain_headers, sample_env_nameless)].

(** * Properties *)

(** ** Bytes, by enumeration *)

Lemma all_bytes_complete (c : byte) : c ∈ all_bytes.
Proof.
  unfold all_bytes. apply list_elem_of_omap.
  exists (Byte.to_N c). split; [|apply Byte.of_to_N].
  apply list_elem_of_fmap. exists (N.to_nat (Byte.to_N c)).
  split; [by rewrite N2Nat.id|].
  apply elem_of_seq. pose proof (Byte.to_N_bounded c). lia.
Qed.

Lemma byte_forall (P : byte → bool) :
  forallb P all_bytes = true → ∀ c, P c = true.
Proof.
  intros H c. rewrite forallb_forall in H. apply H.
  apply list_elem_of_In, all_bytes_complete.
Qed.

Lemma byte_forall2 (P : byte → byte → bool) :
  forallb (λ x, forallb (P x) all_bytes) all_bytes = true → ∀ x y, P x y = true.
Proof.
  intros H x y. apply (byte_forall (P x)). by apply (byte_forall (λ x, forallb (P x) all_bytes)).
Qed.

(** ** Case folding *)

Lemma byte_caseless_eq_lower (x y : byte) :
  byte_caseless_eq x y ↔ byte_lower x = byte_lower y.
Proof.
  unfold byte_caseless_eq.
  pose proof (byte_forall2
    (λ x y, eqb (byte_caseless_eqb x y) (bool_decide (byte_lower x = byte_lower y)))) as H.
  specialize (H ltac:(vm_compute; reflexivity) x y). simpl in H.
  apply eqb_prop in H. rewrite H. apply bool_decide_eq_true.
Qed.

Lemma caseless_eq_lower (s t : bytes) :
  caseless_eq s t ↔ bytes_lower s = bytes_lower t.
Proof.
  unfold caseless_eq, bytes_lower. split.
  - induction 1 as [|x y s t Hxy _ IH]; [done|].
    simpl. f_equal; [by apply byte_caseless_eq_lower | done].
  - revert t. induction s as [|x s IH]; intros [|y t] Heq; simplify_eq/=; constructor.
    + by apply byte_caseless_eq_lower.
    + by apply IH.
Qed.

Lemma header_test_caseless (key : bytes) :
  bytes_lower key = bytes_lit "message-id" ↔ caseless_eq key (bytes_lit "message-id").
Proof. by rewrite caseless_eq_lower. Qed.

(** ** Hexadecimal and decimal rendering *)

Lemma hexdigit_lower_hex (n : N) : n < 16 → is_lower_hex (hexdigit n).
Proof.
  intros Hn. unfold hexdigit, is_lower_hex.
  destruct (N.ltb_spec n 10); lia.
Qed.

Lemma byte_hex_lower_hex (c : byte) : Forall is_lower_hex (byte_hex c).
Proof.
  pose proof (Byte.to_N_bounded c) as Hc.
  unfold byte_hex.
  apply Forall_cons_2; [|apply Forall_cons_2; [|apply Forall_nil_2]];
    apply hexdigit_lower_hex.
  - apply N.Div0.div_lt_upper_bound. lia.
  - apply N.mod_lt. lia.
Qed.

Lemma bytes_hex_length (s : bytes) : length (bytes_hex s) = (2 * length s)%nat.
Proof. induction s as [|c s IH]; simpl; lia. Qed.

Lemma bytes_hex_lower_hex (s : bytes) : Forall is_lower_hex (bytes_hex s).
Proof.
  induction s as [|c s IH]; [constructor|].
  change (bytes_hex (c :: s)) with (byte_hex c ++ bytes_hex s).
  apply Forall_app. split; [apply byte_hex_lower_hex | done].
Qed.

Lemma byte_hex_inj (x y : byte) : byte_hex x = byte_hex y → x = y.
Proof.
  pose proof (byte_forall2
    (λ x y, implb (bool_decide (byte_hex x = byte_hex y)) (bool_decide (x = y)))) as H.
  specialize (H ltac:(vm_compute; reflexivity) x y). simpl in H.
  intros Heq. rewrite (bool_decide_eq_true_2 _ Heq) in H. simpl in H.
  by apply bool_decide_eq_true in H.
Qed.

Lemma bytes_hex_inj (s t : bytes) : bytes_hex s = bytes_hex t → s = t.
Proof.
  revert t. induction s as [|x s IH]; intros [|y t] Heq; try done.
  change (byte_hex x ++ bytes_hex s = byte_hex y ++ bytes_hex t) in Heq.
  apply app_inj_1 in Heq as [Hxy Hst]; [|done].
  f_equal; [by apply byte_hex_inj | by apply IH].
Qed.

Lemma uint_digits (d : Decimal.uint) :
  Forall is_decimal_digit (str_lit (NilEmpty.string_of_uint d)).
Proof.
  induction d; simpl; constructor; try done; unfold is_decimal_digit; simpl; lia.
Qed.

Lemma int_str_digits (z : Z) :
  (0 ≤ z)%Z → int_str z ≠ [] ∧ Forall is_decimal_digit (int_str z).
Proof.
  intros Hz. unfold int_str.
  assert (∃ d, Z.to_int z = Decimal.Pos d) as [d ->].
  { destruct z; simpl; eauto. lia. }
  simpl. destruct d; simpl; (split; [done|]);
    try (constructor; [unfold is_decimal_digit; simpl; lia | apply uint_digits]).
  repeat constructor; unfold is_decimal_digit; simpl; lia.
Qed.

Example int_str_zero : int_str 0 = str_lit "0".
Proof. reflexivity. Qed.

Example int_str_clock : int_str 1700000000123456 = str_lit "1700000000123456".
Proof. reflexivity. Qed.

Example int_str_negative : int_str (-42) = str_lit "-42".
Proof. reflexivity. Qed.

Example bytes_hex_sample :
  bytes_hex [x01; x23; x45; x67; x89; xab; xcd; xef] = str_lit "0123456789abcdef".
Proof. reflexivity. Qed.

(** ** UTF-8 encoding *)

Lemma encode_utf8_app (s t : pystr) :
  encode_utf8 (s ++ t) =
  match encode_utf8 s, encode_utf8 t with
  | Some x, Some y => Some (x ++ y)
  | _, _ => None
  end.
Proof.
  induction s as [|c s IH]; simpl.
  - by destruct (encode_utf8 t).
  - rewrite IH. destruct (utf8_char c), (encode_utf8 s), (encode_utf8 t); try done.
    by rewrite app_assoc.
Qed.

Lemma encode_utf8_ascii (s : pystr) :
  Forall (λ c, c < 128) s → encode_utf8 s = Some (byte_of_N <$> s).
Proof.
  induction 1 as [|c s Hc _ IH]; [done|].
  simpl. rewrite IH. unfold utf8_char.
  destruct (N.ltb_spec c 128); [done | lia].
Qed.

Lemma byte_of_N_inj (n m : N) : n < 256 → m < 256 → byte_of_N n = byte_of_N m → n = m.
Proof.
  unfold byte_of_N. intros Hn Hm.
  destruct (Byte.of_N n) as [x|] eqn:Hx; [|apply Byte.of_N_None_iff in Hx; lia].
  destruct (Byte.of_N m) as [y|] eqn:Hy; [|apply Byte.of_N_None_iff in Hy; lia].
  simpl. intros ->. apply Byte.to_of_N in Hx, Hy. congruence.
Qed.

Lemma encode_utf8_ascii_inj (s t : pystr) :
  Forall (λ c, c < 128) s → Forall (λ c, c < 128) t →
  encode_utf8 s = encode_utf8 t → s = t.
Proof.
  intros Hs Ht. rewrite !encode_utf8_ascii by done. intros [= Heq].
  revert t Ht Heq. induction Hs as [|c s Hc _ IH]; intros t Ht Heq.
  - by destruct t.
  - destruct Ht as [|d t Hd Ht]; simplify_eq/=.
    f_equal; [apply byte_of_N_inj; [lia | lia | done] | by apply IH].
Qed.

Lemma lower_hex_ascii (s : pystr) : Forall is_lower_hex s → Forall (λ c, c < 128) s.
Proof.
  intros H. eapply Forall_impl; [exact H|]. unfold is_lower_hex. simpl. lia.
Qed.

Lemma decimal_ascii (s : pystr) : Forall is_decimal_digit s → Forall (λ c, c < 128) s.
Proof.
  intros H. eapply Forall_impl; [exact H|]. unfold is_decimal_digit. simpl. lia.
Qed.

Lemma int_str_ascii (z : Z) : Forall (λ c, c < 128) (int_str z).
Proof.
  unfold int_str. destruct z as [|p|p]; simpl.
  - repeat constructor.
  - destruct (Pos.to_uint p); try (apply decimal_ascii, (uint_digits (_ _))).
    repeat constructor.
  - constructor; [done|].
    destruct (Pos.to_uint p); try (apply decimal_ascii, (uint_digits (_ _))).
    repeat constructor.
Qed.

(** ** The identifier generator *)

Lemma create_messageid_unfold (env : Env) :
  create_messageid env =
  encode_utf8 (str_lit " <" ++ int_str (time_us env) ++ str_lit "."
               ++ bytes_hex (urandom_1 env) ++ str_lit "@"
               ++ domain_token (getfqdn env) (urandom_2 env) ++ str_lit ">").
Proof.
  unfold create_messageid, domain_token. by destruct (getfqdn env).
Qed.

Lemma domain_token_nonempty (fqdn : pystr) (fallback : bytes) :
  length fallback = 8%nat → domain_token fqdn fallback ≠ [].
Proof.
  intros Hlen. unfold domain_token. case_decide; [|done].
  intros Hnil. apply (f_equal length) in Hnil.
  rewrite bytes_hex_length, Hlen in Hnil. done.
Qed.

Lemma domain_token_encodable (fqdn : pystr) (fallback : bytes) :
  encodable fqdn → encodable (domain_token fqdn fallback).
Proof.
  unfold encodable, domain_token. case_decide; [|done]. intros _.
  rewrite encode_utf8_ascii; [done|]. apply lower_hex_ascii, bytes_hex_lower_hex.
Qed.

(** The generator returns whenever the host name is encodable text. *)
Lemma create_messageid_returns (env : Env) :
  encodable (getfqdn env) → is_Some (create_messageid env).
Proof.
  intros Henc. rewrite create_messageid_unfold.
  apply (domain_token_encodable _ (urandom_2 env)) in Henc as [tok Htok].
  rewrite !encode_utf8_app, Htok.
  rewrite (encode_utf8_ascii (int_str _)) by apply int_str_ascii.
  rewrite (encode_utf8_ascii (bytes_hex _)) by apply lower_hex_ascii, bytes_hex_lower_hex.
  done.
Qed.

Lemma create_messageid_returns_nameless (env : Env) :
  getfqdn env = [] → is_Some (create_messageid env).
Proof. intros Hnil. apply create_messageid_returns. rewrite Hnil. by exists []. Qed.

(** C3. For a non-negative clock reading and 8-byte random draws, the
    result of [create_messageid] is the UTF-8 encoding of: a space, a
    less-than sign, one or more decimal digits (the clock reading), a dot,
    exactly 16 lowercase hexadecimal characters (the first draw), an at
    sign, a non-empty token and a greater-than sign. The token is the host
    name when there is one, and otherwise the 16 lowercase hexadecimal
    characters of the second draw. The encoding exists whenever the host
    name is encodable, in particular when it is empty. *)
Theorem create_messageid_format (env : Env) :
  (0 ≤ time_us env)%Z →
  length (urandom_1 env) = 8%nat →
  length (urandom_2 env) = 8%nat →
  ∃ digits hex token : pystr,
    create_messageid env =
      encode_utf8 (str_lit " <" ++ digits ++ str_lit "." ++ hex
                   ++ str_lit "@" ++ token ++ str_lit ">")
    ∧ (digits = int_str (time_us env) ∧ digits ≠ [] ∧ Forall is_decimal_digit digits)
    ∧ (hex = bytes_hex (urandom_1 env) ∧ length hex = 16%nat ∧ Forall is_lower_hex hex)
    ∧ token ≠ []
    ∧ (getfqdn env ≠ [] → token = getfqdn env)
    ∧ (getfqdn env = [] →
       token = bytes_hex (urandom_2 env) ∧ length token = 16%nat
       ∧ Forall is_lower_hex token ∧ is_Some (create_messageid env))
    ∧ (encodable (getfqdn env) → is_Some (create_messageid env)).
Proof.
  intros Htime Hr1 Hr2.
  exists (int_str (time_us env)), (bytes_hex (urandom_1 env)),
         (domain_token (getfqdn env) (urandom_2 env)).
  split; [apply create_messageid_unfold|].
  split; [split; [done | by apply int_str_digits]|].
  split.
  { split; [done|]. split; [by rewrite bytes_hex_length, Hr1 | apply bytes_hex_lower_hex]. }
  split; [by apply domain_token_nonempty|].
  split; [unfold domain_token; by case_decide|].
  split.
  { intros Hnil. unfold domain_token. rewrite decide_True by done.
    split; [done|]. split; [by rewrite bytes_hex_length, Hr2|].
    split; [apply bytes_hex_lower_hex | by apply create_messageid_returns_nameless]. }
  apply create_messageid_returns.
Qed.

Lemma encode_utf8_middle (pre suf h h' : pystr) :
  Forall (λ c, c < 128) h → Forall (λ c, c < 128) h' →
  is_Some (encode_utf8 (pre ++ h ++ suf)) →
  is_Some (encode_utf8 (pre ++ h' ++ suf))
  ∧ (encode_utf8 (pre ++ h ++ suf) = encode_utf8 (pre ++ h' ++ suf) → h = h').
Proof.
  intros Hh Hh'. rewrite !encode_utf8_app.
  rewrite (encode_utf8_ascii h), (encode_utf8_ascii h') by done.
  destruct (encode_utf8 pre) as [p|], (encode_utf8 suf) as [q|];
    try (by intros [? [=]]).
  intros _. split; [done|]. intros [= Heq].
  apply app_inv_head, app_inv_tail in Heq.
  apply encode_utf8_ascii_inj; [done..|].
  by rewrite !encode_utf8_ascii, Heq.
Qed.

(** C9. With the clock reading and the domain token fixed, two calls that
    draw different random bytes generate different identifiers: when the
    first call yields an identifier, so does the second, and the two
    differ. *)
Theorem create_messageid_injective (env env' : Env) :
  time_us env = time_us env' →
  domain_token (getfqdn env) (urandom_2 env) = domain_token (getfqdn env') (urandom_2 env') →
  urandom_1 env ≠ urandom_1 env' →
  is_Some (create_messageid env) →
  is_Some (create_messageid env') ∧ create_messageid env ≠ create_messageid env'.
Proof.
  intros Htime Htok Hrand. rewrite !create_messageid_unfold, <- Htime, <- Htok.
  set (pre := str_lit " <" ++ int_str (time_us env) ++ str_lit ".").
  set (suf := str_lit "@" ++ domain_token (getfqdn env) (urandom_2 env) ++ str_lit ">").
  assert (∀ h, str_lit " <" ++ int_str (time_us env) ++ str_lit "." ++ h ++ suf
               = pre ++ h ++ suf) as Hshape.
  { intros h. unfold pre. by rewrite <- !app_assoc. }
  rewrite !Hshape. intros Hsome.
  destruct (encode_utf8_middle pre suf (bytes_hex (urandom_1 env))
              (bytes_hex (urandom_1 env'))) as [Hsome' Hinj]; try done;
    try apply lower_hex_ascii, bytes_hex_lower_hex.
  split; [done|]. intros Heq. apply Hrand, bytes_hex_inj, Hinj, Heq.
Qed.

(** ** Attribute access *)

Lemma inst_dict_setattr_eq (w : World) (self : oid) (name : string) (v : bool) :
  inst_dict (setattr w self name v) self = <[name := v]> (inst_dict w self).
Proof. unfold inst_dict, setattr. simpl. by rewrite lookup_insert_eq. Qed.

Lemma inst_dict_setattr_ne (w : World) (i j : oid) (name : string) (v : bool) :
  i ≠ j → inst_dict (setattr w i name v) j = inst_dict w j.
Proof. intros Hne. unfold inst_dict, setattr. simpl. by rewrite lookup_insert_ne. Qed.

Lemma getattr_setattr_eq (w : World) (self : oid) (name : string) (v : bool) :
  getattr (setattr w self name v) self name = Some v.
Proof. unfold getattr. by rewrite inst_dict_setattr_eq, lookup_insert_eq. Qed.

Lemma getattr_setattr_other (w : World) (i j : oid) (name name' : string) (v : bool) :
  i ≠ j → getattr (setattr w i name v) j name' = getattr w j name'.
Proof. intros Hne. unfold getattr. by rewrite inst_dict_setattr_ne. Qed.

Lemma setattr_setattr (w : World) (self : oid) (name : string) (v v' : bool) :
  setattr (setattr w self name v) self name v' = setattr w self name v'.
Proof.
  unfold setattr at 1 3. rewrite inst_dict_setattr_eq. simpl.
  by rewrite !insert_insert_eq.
Qed.

(** A fresh instance reads the flag from the class. *)
Lemma getattr_fresh (self : oid) :
  getattr initial_world self "has_messageid" = Some false.
Proof. reflexivity. Qed.

(** ** The header callback *)

Lemma header_unfold (w : World) (self : oid) (key val : bytes) (cmdDict : cmd_dict) :
  header w self key val cmdDict =
  (if decide (caseless_eq key (bytes_lit "message-id"))
   then setattr w self "has_messageid" true else w, CONTINUE).
Proof.
  unfold header. f_equal.
  destruct (decide (bytes_lower key = _)) as [H|H];
    rewrite header_test_caseless in H.
  - by rewrite decide_True.
  - by rewrite decide_False.
Qed.

(** C4. Whatever the session state, the header name and the header value,
    [header] returns CONTINUE; it assigns true to the flag when the name is
    case-insensitively equal to message-id and otherwise leaves the whole
    state, hence the flag, as it was. *)
Theorem header_continue_and_flag (w : World) (self : oid) (key val : bytes)
    (cmdDict : cmd_dict) :
  snd (header w self key val cmdDict) = CONTINUE
  ∧ fst (header w self key val cmdDict) =
      (if decide (caseless_eq key (bytes_lit "message-id"))
       then setattr w self "has_messageid" true else w)
  ∧ getattr (fst (header w self key val cmdDict)) self "has_messageid" =
      (if decide (caseless_eq key (bytes_lit "message-id"))
       then Some true else getattr w self "has_messageid").
Proof.
  rewrite header_unfold. simpl. split; [done|]. split; [done|].
  case_decide; [apply getattr_setattr_eq | done].
Qed.

(** C8. The header value has no influence: two calls that differ only in
    the value return the same verdict and the same state. *)
Theorem header_value_noninterference (w : World) (self : oid) (key val val' : bytes)
    (cmdDict : cmd_dict) :
  header w self key val cmdDict = header w self key val' cmdDict.
Proof. reflexivity. Qed.

Example header_empty_name :
  header initial_world 0%nat [] (bytes_lit "x") [] = (initial_world, CONTINUE).
Proof. reflexivity. Qed.

Example header_mixed_case :
  getattr (fst (header initial_world 0%nat (bytes_lit "MeSsAgE-Id") [] [])) 0%nat "has_messageid"
  = Some true.
Proof. reflexivity. Qed.

Example header_high_bytes_kept :
  bytes_lower [xcd; "M"%byte; x40; x5b] = [xcd; "m"%byte; x40; x5b].
Proof. reflexivity. Qed.

(** ** One session *)

(** Reduce a callback to what it does to the flag. *)
Ltac flag_simpl :=
  rewrite ?header_unfold; cbn [fst snd];
  try case_decide; rewrite ?getattr_setattr_eq; try done.

Section Session.

Context (self : oid) (cmdDict : cmd_dict).

(** *** The header phase *)

Lemma scan_headers_cons (w : World)
    (h : bytes * bytes) (hs : list (bytes * bytes)) :
  scan_headers w self cmdDict (h :: hs) =
  scan_headers (fst (header w self (fst h) (snd h) cmdDict)) self cmdDict hs.
Proof. reflexivity. Qed.

Lemma scan_headers_no_match (w : World) (hs : list (bytes * bytes)) :
  Forall (λ h, ¬ caseless_eq (fst h) (bytes_lit "message-id")) hs →
  scan_headers w self cmdDict hs = w.
Proof.
  induction 1 as [|h hs Hh _ IH]; [done|].
  rewrite scan_headers_cons, header_unfold. simpl. by rewrite decide_False.
Qed.

Lemma scan_headers_keeps_true (w : World) (hs : list (bytes * bytes)) :
  getattr w self "has_messageid" = Some true →
  getattr (scan_headers w self cmdDict hs) self "has_messageid" = Some true.
Proof.
  revert w. induction hs as [|h hs IH]; intros w Hw; [done|].
  rewrite scan_headers_cons. apply IH. by flag_simpl.
Qed.

Lemma scan_headers_match (w : World) (hs : list (bytes * bytes)) :
  Exists (λ h, caseless_eq (fst h) (bytes_lit "message-id")) hs →
  getattr (scan_headers w self cmdDict hs) self "has_messageid" = Some true.
Proof.
  intros Hex. revert w. induction Hex as [h hs Hh|h hs _ IH]; intros w.
  - rewrite scan_headers_cons. apply scan_headers_keeps_true. by flag_simpl.
  - rewrite scan_headers_cons. apply IH.
Qed.

(** *** End of message *)

Lemma eob_flag_true (w : World) (env : Env) :
  getattr w self "has_messageid" = Some true →
  eob w self cmdDict env = (Return CONTINUE, setattr w self "has_messageid" false, []).
Proof. intros Hw. unfold eob. by rewrite Hw. Qed.

Lemma eob_flag_false (w : World) (env : Env) (val : bytes) :
  getattr w self "has_messageid" = Some false →
  create_messageid env = Some val →
  eob w self cmdDict env =
  (Return CONTINUE, w,
   log (eob_log_message (bytes_lit "Message-ID") val)
   ++ [AddHeader (bytes_lit "Message-ID") val]).
Proof. intros Hw Hid. unfold eob. by rewrite Hw, Hid. Qed.

(** C1. A transaction that starts with the flag reading false and whose
    headers hold no name case-insensitively equal to message-id ends, at
    [eob], with the verdict CONTINUE and exactly one header injection: the
    name Message-ID with the identifier the generator returned. The host
    name the system reports is encodable text. *)
Theorem eob_injects_when_absent (w : World) (env : Env) (hs : list (bytes * bytes)) :
  getattr w self "has_messageid" = Some false →
  Forall (λ h, ¬ caseless_eq (fst h) (bytes_lit "message-id")) hs →
  encodable (getfqdn env) →
  ∃ val out, create_messageid env = Some val
             ∧ transaction w self cmdDict env hs = (Return CONTINUE, w, out)
             ∧ injections out = [(bytes_lit "Message-ID", val)].
Proof.
  intros Hw Hhs Henc. unfold transaction.
  destruct (create_messageid_returns env Henc) as [val Hid].
  rewrite scan_headers_no_match by done.
  rewrite (eob_flag_false _ _ val) by done.
  exists val. eexists. split; [done|]. split; reflexivity.
Qed.

(** C2. A transaction whose headers hold at least one name
    case-insensitively equal to message-id, with any value and from any
    state, ends at [eob] with the verdict CONTINUE, no call at all to the
    outside, hence no header injection, and the flag reading false. *)
Theorem eob_silent_when_present (w : World)
    (env : Env) (hs : list (bytes * bytes)) :
  Exists (λ h, caseless_eq (fst h) (bytes_lit "message-id")) hs →
  ∃ w' out, transaction w self cmdDict env hs = (Return CONTINUE, w', out)
            ∧ out = [] ∧ injections out = []
            ∧ getattr w' self "has_messageid" = Some false.
Proof.
  intros Hhs. unfold transaction.
  rewrite eob_flag_true by by apply scan_headers_match.
  eexists _, _. split; [reflexivity|]. split; [done|]. split; [done|].
  apply getattr_setattr_eq.
Qed.

(** X16. Every transaction, whatever it decided and even when it raised,
    ends with the flag reading false, which is what the next one on the
    same session starts from. *)
Lemma transaction_ends_false (w : World) (env : Env) (hs : list (bytes * bytes)) :
  is_Some (getattr w self "has_messageid") →
  getattr (snd (fst (transaction w self cmdDict env hs))) self "has_messageid" = Some false.
Proof.
  intros [b Hb]. unfold transaction, eob.
  assert (is_Some (getattr (scan_headers w self cmdDict hs) self "has_messageid"))
    as [b' Hb'].
  { clear env. revert w b Hb. induction hs as [|h hs IH]; intros w b Hb; [by eexists|].
    rewrite scan_headers_cons, header_unfold. cbn [fst snd].
    case_decide; [|by eapply IH]. eapply IH, getattr_setattr_eq. }
  rewrite Hb'. destruct b'; cbn [fst snd]; [apply getattr_setattr_eq|].
  by destruct (create_messageid env).
Qed.

(** *** The flag between resets *)

(** C5. From a state in which the flag reads true, a header callback
    leaves it true, and so does any run of header callbacks; each of
    end-of-message, abort and close leaves it false. So the callbacks that
    take the flag from true to false are exactly those three. *)
Theorem flag_true_until_reset (w : World) (env : Env)
    (cb : callback) :
  getattr w self "has_messageid" = Some true →
  getattr (snd (fst (dispatch w self cmdDict env cb))) self "has_messageid" =
    match cb with
    | Header _ _ => Some true
    | Eob | Abort | Close => Some false
    end
  ∧ ∀ hs, getattr (scan_headers w self cmdDict hs) self "has_messageid" = Some true.
Proof.
  intros Hw. split; [|intros hs; by apply scan_headers_keeps_true].
  destruct cb as [key val| | |]; unfold dispatch.
  - by flag_simpl.
  - rewrite eob_flag_true by done. by flag_simpl.
  - unfold abort. by flag_simpl.
  - unfold close. by flag_simpl.
Qed.

(** *** Resets *)

Lemma scan_headers_agree (w1 w2 : World)
    (hs : list (bytes * bytes)) :
  getattr w1 self "has_messageid" = getattr w2 self "has_messageid" →
  getattr (scan_headers w1 self cmdDict hs) self "has_messageid"
  = getattr (scan_headers w2 self cmdDict hs) self "has_messageid".
Proof.
  revert w1 w2. induction hs as [|h hs IH]; intros w1 w2 Hw; [done|].
  rewrite !scan_headers_cons. apply IH. by flag_simpl.
Qed.

Lemma eob_agree (w1 w2 : World) (env : Env) :
  getattr w1 self "has_messageid" = getattr w2 self "has_messageid" →
  observation self (eob w1 self cmdDict env) = observation self (eob w2 self cmdDict env).
Proof.
  intros Hw. unfold eob. rewrite <- Hw.
  destruct (getattr w1 self "has_messageid") as [[]|] eqn:H1; unfold observation; simpl.
  - by rewrite !getattr_setattr_eq.
  - destruct (create_messageid env); simpl; congruence.
  - congruence.
Qed.

(** What a transaction shows depends on the state only through the flag
    the session reads at its start. *)
Lemma transaction_agree (w1 w2 : World) (env : Env)
    (hs : list (bytes * bytes)) :
  getattr w1 self "has_messageid" = getattr w2 self "has_messageid" →
  observation self (transaction w1 self cmdDict env hs)
  = observation self (transaction w2 self cmdDict env hs).
Proof. intros Hw. unfold transaction. by apply eob_agree, scan_headers_agree. Qed.

(** C6. Whatever the flag was, [abort] and [close] leave it reading false
    and return no value; each is idempotent on the whole state; and the
    transaction that follows a reset shows the same verdict, the same
    calls and the same final flag whatever state preceded the reset. *)
Theorem abort_close_reset (w : World) :
  (getattr (abort w self) self "has_messageid" = Some false
   ∧ getattr (close w self) self "has_messageid" = Some false)
  ∧ (∀ env,
       dispatch w self cmdDict env Abort = (Return None, abort w self, [])
       ∧ dispatch w self cmdDict env Close = (Return None, close w self, []))
  ∧ (abort (abort w self) self = abort w self
     ∧ close (close w self) self = close w self)
  ∧ (∀ w0 env hs,
       observation self (transaction (abort w self) self cmdDict env hs)
       = observation self (transaction (abort w0 self) self cmdDict env hs)
       ∧ observation self (transaction (close w self) self cmdDict env hs)
         = observation self (transaction (close w0 self) self cmdDict env hs)).
Proof.
  unfold abort, close.
  split; [split; apply getattr_setattr_eq|].
  split; [done|].
  split; [split; apply setattr_setattr|].
  intros w0 env hs.
  split; apply transaction_agree; by rewrite !getattr_setattr_eq.
Qed.

End Session.

(** ** Isolation of sessions *)

Lemma dispatch_frame (w : World) (self : oid) (cmdDict : cmd_dict) (env : Env)
    (cb : callback) :
  snd (fst (dispatch w self cmdDict env cb)) = w
  ∨ ∃ v, snd (fst (dispatch w self cmdDict env cb)) = setattr w self "has_messageid" v.
Proof.
  destruct cb as [key val| | |]; simpl.
  - unfold header. simpl. case_decide; eauto.
  - unfold eob. destruct (getattr w self "has_messageid") as [[]|]; simpl; eauto.
    destruct (create_messageid env); simpl; eauto.
  - unfold abort. eauto.
  - unfold close. eauto.
Qed.

(** C10. A callback dispatched to one session leaves every other session
    as it was: the other session reads the same flag, its own attributes
    are untouched, and so are the attributes of the class, from which a
    session that has not yet assigned the flag reads it. *)
Theorem sessions_isolated (w : World) (i j : oid) (cmdDict : cmd_dict) (env : Env)
    (cb : callback) :
  i ≠ j →
  getattr (snd (fst (dispatch w i cmdDict env cb))) j "has_messageid"
  = getattr w j "has_messageid"
  ∧ inst_dict (snd (fst (dispatch w i cmdDict env cb))) j = inst_dict w j
  ∧ cls_dict (snd (fst (dispatch w i cmdDict env cb))) = cls_dict w.
Proof.
  intros Hij.
  destruct (dispatch_frame w i cmdDict env cb) as [-> | [v ->]]; [done|].
  split; [by apply getattr_setattr_other|].
  split; [by apply inst_dict_setattr_ne | done].
Qed.

(** ** Provisioning of the socket directory *)

(** C7 fails on the code: a permission failure of [os.mkdir] is swallowed
    by the handler and start-up proceeds, where the specification asks for
    a start-up error. *)
Theorem run_messageidmilter_mkdir_swallows_permission_error :
  run_messageidmilter_mkdir (Some PermissionError) = Proceed
  ∧ run_messageidmilter_mkdir_spec (Some PermissionError) = StartupError PermissionError.
Proof. split; reflexivity. Qed.

Lemma run_messageidmilter_mkdir_never_fails (mkdir : option oserror) :
  run_messageidmilter_mkdir mkdir = Proceed.
Proof. by destruct mkdir. Qed.

(** ** Interleaved sessions *)

Lemma dispatch_other (w : World) (i j : oid) (cmdDict : cmd_dict) (env : Env)
    (cb : callback) :
  i ≠ j →
  getattr (snd (fst (dispatch w i cmdDict env cb))) j "has_messageid"
  = getattr w j "has_messageid".
Proof.
  intros Hij.
  destruct (dispatch_frame w i cmdDict env cb) as [-> | [v ->]]; [done|].
  by apply getattr_setattr_other.
Qed.

Lemma dispatch_agree (w1 w2 : World) (self : oid) (cmdDict : cmd_dict) (env1 env2 : Env)
    (cb : callback) :
  getattr w1 self "has_messageid" = getattr w2 self "has_messageid" →
  getattr (snd (fst (dispatch w1 self cmdDict env1 cb))) self "has_messageid"
  = getattr (snd (fst (dispatch w2 self cmdDict env2 cb))) self "has_messageid".
Proof.
  intros Hw. destruct cb as [key val| | |]; unfold dispatch.
  - by flag_simpl.
  - unfold eob. rewrite <- Hw.
    destruct (getattr w1 self "has_messageid") as [[]|] eqn:H1; cbn [fst snd].
    + by rewrite !getattr_setattr_eq.
    + destruct (create_messageid env1), (create_messageid env2); cbn [fst snd]; congruence.
    + congruence.
  - unfold abort. by flag_simpl.
  - unfold close. by flag_simpl.
Qed.

(** X15. However the callbacks of several sessions are interleaved, the
    flag a session ends with is the one it would end with had it run
    alone. *)
Lemma schedule_isolated (w : World) (j : oid) (cmdDict : cmd_dict)
    (sched : list (oid * callback * Env)) :
  getattr (run_schedule w cmdDict sched) j "has_messageid"
  = getattr (run_schedule w cmdDict (schedule_of j sched)) j "has_messageid".
Proof.
  assert (∀ w1 w2,
    getattr w1 j "has_messageid" = getattr w2 j "has_messageid" →
    getattr (run_schedule w1 cmdDict sched) j "has_messageid"
    = getattr (run_schedule w2 cmdDict (schedule_of j sched)) j "has_messageid") as Hgen.
  { induction sched as [|[[i cb] env] sched IH]; intros w1 w2 Hw; [done|].
    unfold schedule_of. rewrite filter_cons. simpl.
    case_decide as Hi.
    - subst i. simpl. apply IH. by apply dispatch_agree.
    - apply IH. by rewrite dispatch_other. }
  by apply Hgen.
Qed.

(** ** The claims at sample inputs *)

Example create_messageid_sample : create_messageid sample_env = Some sample_id.
Proof. reflexivity. Qed.

Example create_messageid_nameless :
  create_messageid sample_env_nameless
  = Some (bytes_lit " <1700000000123456.0123456789abcdef@0011223344556677>").
Proof. reflexivity. Qed.

(** A host name holding a lone surrogate cannot be encoded. *)
Example create_messageid_surrogate :
  create_messageid {| time_us := 0; urandom_1 := []; urandom_2 := []; getfqdn := [0xDC80] |}
  = None.
Proof. reflexivity. Qed.

Lemma create_messageid_format_witness :
  (0 ≤ time_us sample_env_nameless)%Z
  ∧ length (urandom_1 sample_env_nameless) = 8%nat
  ∧ length (urandom_2 sample_env_nameless) = 8%nat
  ∧ ∃ digits hex token : pystr,
      create_messageid sample_env_nameless =
        encode_utf8 (str_lit " <" ++ digits ++ str_lit "." ++ hex
                     ++ str_lit "@" ++ token ++ str_lit ">")
      ∧ (digits = int_str (time_us sample_env_nameless) ∧ digits ≠ []
         ∧ Forall is_decimal_digit digits)
      ∧ (hex = bytes_hex (urandom_1 sample_env_nameless) ∧ length hex = 16%nat
         ∧ Forall is_lower_hex hex)
      ∧ token ≠ []
      ∧ (getfqdn sample_env_nameless ≠ [] → token = getfqdn sample_env_nameless)
      ∧ (getfqdn sample_env_nameless = [] →
         token = bytes_hex (urandom_2 sample_env_nameless) ∧ length token = 16%nat
         ∧ Forall is_lower_hex token ∧ is_Some (create_messageid sample_env_nameless))
      ∧ (encodable (getfqdn sample_env_nameless)
         → is_Some (create_messageid sample_env_nameless)).
Proof.
  split; [vm_compute; discriminate|].
  split; [reflexivity|]. split; [reflexivity|].
  apply (create_messageid_format sample_env_nameless);
    [vm_compute; discriminate | reflexivity | reflexivity].
Defined.

Lemma create_messageid_injective_witness :
  time_us sample_env = time_us sample_env_redrawn
  ∧ domain_token (getfqdn sample_env) (urandom_2 sample_env)
    = domain_token (getfqdn sample_env_redrawn) (urandom_2 sample_env_redrawn)
  ∧ urandom_1 sample_env ≠ urandom_1 sample_env_redrawn
  ∧ is_Some (create_messageid sample_env)
  ∧ is_Some (create_messageid sample_env_redrawn)
  ∧ create_messageid sample_env ≠ create_messageid sample_env_redrawn.
Proof.
  assert (urandom_1 sample_env ≠ urandom_1 sample_env_redrawn) as Hne
    by (vm_compute; discriminate).
  assert (is_Some (create_messageid sample_env)) as Hsome
    by (exists sample_id; reflexivity).
  split; [reflexivity|]. split; [reflexivity|]. split; [exact Hne|]. split; [exact Hsome|].
  apply (create_messageid_injective sample_env sample_env_redrawn);
    [reflexivity | reflexivity | exact Hne | exact Hsome].
Defined.

Lemma eob_injects_when_absent_witness :
  getattr initial_world 0%nat "has_messageid" = Some false
  ∧ Forall (λ h, ¬ caseless_eq (fst h) (bytes_lit "message-id")) plain_headers
  ∧ encodable (getfqdn sample_env)
  ∧ ∃ val out, create_messageid sample_env = Some val
               ∧ transaction initial_world 0%nat [] sample_env plain_headers
                 = (Return CONTINUE, initial_world, out)
               ∧ injections out = [(bytes_lit "Message-ID", val)].
Proof.
  assert (Forall (λ h, ¬ caseless_eq (fst h) (bytes_lit "message-id")) plain_headers) as Hhs
    by (apply (bool_decide_unpack _); vm_compute; exact I).
  assert (encodable (getfqdn sample_env)) as Henc
    by (exists (bytes_lit "mail.example.org"); reflexivity).
  split; [reflexivity|]. split; [exact Hhs|]. split; [exact Henc|].
  apply (eob_injects_when_absent 0%nat [] initial_world sample_env plain_headers);
    [reflexivity | exact Hhs | exact Henc].
Defined.

Lemma eob_silent_when_present_witness :
  Exists (λ h, caseless_eq (fst h) (bytes_lit "message-id")) tagged_headers
  ∧ ∃ w' out, transaction initial_world 0%nat [] sample_env tagged_headers
              = (Return CONTINUE, w', out)
              ∧ out = [] ∧ injections out = []
              ∧ getattr w' 0%nat "has_messageid" = Some false.
Proof.
  assert (Exists (λ h, caseless_eq (fst h) (bytes_lit "message-id")) tagged_headers) as Hhs
    by (apply (bool_decide_unpack _); vm_compute; exact I).
  split; [exact Hhs|].
  apply (eob_silent_when_present 0%nat [] initial_world sample_env tagged_headers Hhs).
Defined.

Lemma flag_true_until_reset_witness :
  getattr (setattr initial_world 0%nat "has_messageid" true) 0%nat "has_messageid" = Some true
  ∧ getattr (snd (fst (dispatch (setattr initial_world 0%nat "has_messageid" true) 0%nat []
                         sample_env (Header (bytes_lit "Message-ID") (bytes_lit "<x@y>")))))
      0%nat "has_messageid" = Some true
  ∧ ∀ hs, getattr (scan_headers (setattr initial_world 0%nat "has_messageid" true) 0%nat [] hs)
            0%nat "has_messageid" = Some true.
Proof.
  split; [reflexivity|].
  apply (flag_true_until_reset 0%nat [] (setattr initial_world 0%nat "has_messageid" true)
           sample_env (Header (bytes_lit "Message-ID") (bytes_lit "<x@y>"))).
  reflexivity.
Defined.

Lemma sessions_isolated_witness :
  0%nat ≠ 1%nat
  ∧ getattr (snd (fst (dispatch initial_world 0%nat [] sample_env
                         (Header (bytes_lit "Message-ID") (bytes_lit "<x@y>")))))
      1%nat "has_messageid"
    = getattr initial_world 1%nat "has_messageid"
  ∧ inst_dict (snd (fst (dispatch initial_world 0%nat [] sample_env
                           (Header (bytes_lit "Message-ID") (bytes_lit "<x@y>"))))) 1%nat
    = inst_dict initial_world 1%nat
  ∧ cls_dict (snd (fst (dispatch initial_world 0%nat [] sample_env
                          (Header (bytes_lit "Message-ID") (bytes_lit "<x@y>")))))
    = cls_dict initial_world.
Proof.
  assert (0%nat ≠ 1%nat) as Hne by discriminate.
  split; [exact Hne|].
  apply (sessions_isolated initial_world 0%nat 1%nat [] sample_env
           (Header (bytes_lit "Message-ID") (bytes_lit "<x@y>")) Hne).
Defined.

(** The end-to-end scenario: one connection, two messages in a row. *)
Example two_messages_on_one_connection :
  let r1 := transaction initial_world 0%nat [] sample_env plain_headers in
  let r2 := transaction (snd (fst r1)) 0%nat [] sample_env
              [(bytes_lit "From", bytes_lit "a@b"); (bytes_lit "Message-ID", bytes_lit "<x@y>")] in
  injections (snd r1) = [(bytes_lit "Message-ID", sample_id)]
  ∧ injections (snd r2) = []
  ∧ fst (fst r1) = Return CONTINUE ∧ fst (fst r2) = Return CONTINUE.
Proof. repeat split; reflexivity. Qed.

(** Two sessions born from the class: the first sees a Message-ID header,
    the second does not, and only the second gets one injected. *)
Example two_fresh_sessions :
  let w1 := fst (header initial_world 0%nat (bytes_lit "Message-ID") (bytes_lit "<x@y>") []) in
  getattr w1 0%nat "has_messageid" = Some true
  ∧ getattr w1 1%nat "has_messageid" = Some false
  ∧ injections (snd (eob w1 1%nat [] sample_env)) = [(bytes_lit "Message-ID", sample_id)]
  ∧ injections (snd (eob w1 0%nat [] sample_env)) = [].
Proof. repeat split; reflexivity. Qed.

(** * Beyond the claims *)

(** ** The header phase as a whole *)

Lemma name_matches_spec (key : bytes) :
  name_matches key = true ↔ caseless_eq key (bytes_lit "message-id").
Proof. unfold name_matches. apply bool_decide_eq_true. Qed.

Lemma header_name_matches (w : World) (self : oid) (key val : bytes) (cmdDict : cmd_dict) :
  header w self key val cmdDict =
  (if name_matches key then setattr w self "has_messageid" true else w, CONTINUE).
Proof.
  rewrite header_unfold. unfold name_matches.
  case_decide; [by rewrite bool_decide_eq_true_2 | by rewrite bool_decide_eq_false_2].
Qed.

(** X1. The header phase comes to one assignment of true when some header
    name matches and to nothing otherwise: the order of the headers, their
    repetition and their values do not enter. *)
Theorem scan_headers_closed_form (w : World) (self : oid) (cmdDict : cmd_dict)
    (hs : list (bytes * bytes)) :
  scan_headers w self cmdDict hs =
  if has_messageid_header hs then setattr w self "has_messageid" true else w.
Proof.
  revert w. induction hs as [|h hs IH]; intros w; [done|].
  rewrite scan_headers_cons, header_name_matches, IH. cbn [fst snd].
  unfold has_messageid_header. cbn [existsb].
  destruct (name_matches (fst h)); cbn [orb]; [|done].
  destruct (existsb _ hs); [apply setattr_setattr | done].
Qed.

Lemma caseless_eq_length (s t : bytes) : caseless_eq s t → length s = length t.
Proof. apply Forall2_length. Qed.

(** X2. A name that is not exactly ten bytes long is never taken for
    Message-ID: nothing is trimmed or skipped before the comparison, and
    the callback leaves the state as it was. *)
Theorem header_ignores_other_lengths (w : World) (self : oid) (key val : bytes)
    (cmdDict : cmd_dict) :
  length key ≠ 10%nat → header w self key val cmdDict = (w, CONTINUE).
Proof.
  intros Hlen. rewrite header_unfold. rewrite decide_False; [done|].
  intros Heq. apply caseless_eq_length in Heq. by apply Hlen.
Qed.

(** ** A connection as a run of callbacks *)

Lemma injections_app (out out' : list event) :
  injections (out ++ out') = injections out ++ injections out'.
Proof. unfold injections. apply omap_app. Qed.

(** One callback against the flag machine. *)
Lemma dispatch_flag_step (w : World) (self : oid) (cmdDict : cmd_dict) (env : Env)
    (cb : callback) (b : bool) :
  getattr w self "has_messageid" = Some b →
  (cb = Eob → b = false → is_Some (create_messageid env)) →
  ∃ v w' out,
    dispatch w self cmdDict env cb = (Return v, w', out)
    ∧ getattr w' self "has_messageid" = Some (flag_step b cb)
    ∧ injections out = flag_injection b cb env.
Proof.
  intros Hb Hgen. destruct cb as [key val| | |]; unfold dispatch.
  - rewrite header_name_matches. eexists _, _, _. split; [reflexivity|].
    split; [|done]. cbn [flag_step].
    destruct (name_matches key); [|by rewrite orb_false_r].
    by rewrite getattr_setattr_eq, orb_true_r.
  - unfold eob. rewrite Hb. destruct b.
    + eexists _, _, _. split; [reflexivity|]. by rewrite getattr_setattr_eq.
    + destruct (Hgen eq_refl eq_refl) as [val Hval]. rewrite Hval.
      eexists _, _, _. split; [reflexivity|]. split; [done|].
      cbn [flag_injection]. by rewrite Hval.
  - eexists _, _, _. split; [reflexivity|]. unfold abort.
    by rewrite getattr_setattr_eq.
  - eexists _, _, _. split; [reflexivity|]. unfold close.
    by rewrite getattr_setattr_eq.
Qed.

Lemma run_callbacks_flag_run (w : World) (self : oid) (cmdDict : cmd_dict)
    (cbs : list (callback * Env)) (b : bool) :
  getattr w self "has_messageid" = Some b →
  Forall (λ c, encodable (getfqdn (snd c))) cbs →
  ∃ w' out,
    run_callbacks w self cmdDict cbs = (Return tt, w', out)
    ∧ getattr w' self "has_messageid" = Some (fst (flag_run b cbs))
    ∧ injections out = snd (flag_run b cbs).
Proof.
  intros Hb Henc. revert w b Hb.
  induction Henc as [|[cb env] cbs Hc _ IH]; intros w b Hb.
  - by eexists _, _.
  - destruct (dispatch_flag_step w self cmdDict env cb b Hb) as (v & w1 & out1 & Hd & Hb1 & Hi1).
    { intros _ _. by apply create_messageid_returns. }
    destruct (IH w1 _ Hb1) as (w2 & out2 & Hr & Hb2 & Hi2).
    cbn [run_callbacks flag_run]. rewrite Hd, Hr.
    destruct (flag_run (flag_step b cb) cbs) as [b' inj] eqn:Hfr.
    eexists _, _. split; [reflexivity|]. split; [done|].
    by rewrite injections_app, Hi1, Hi2.
Qed.

(** X3. Whatever callbacks a connection receives, in whatever order, the
    session behaves as the one-bit machine read off the four methods: the
    flag it ends with and the header injections it asked for along the way
    are those of the machine. The host names the system reports are
    encodable text, so no callback raises. *)
Theorem session_follows_flag_machine (w : World) (self : oid) (cmdDict : cmd_dict)
    (cbs : list (callback * Env)) (b : bool) :
  getattr w self "has_messageid" = Some b →
  Forall (λ c, encodable (getfqdn (snd c))) cbs →
  ∃ w' out,
    run_callbacks w self cmdDict cbs = (Return tt, w', out)
    ∧ getattr w' self "has_messageid" = Some (fst (flag_run b cbs))
    ∧ injections out = snd (flag_run b cbs).
Proof. apply run_callbacks_flag_run. Qed.

Lemma flag_run_app (b : bool) (cbs cbs' : list (callback * Env)) :
  flag_run b (cbs ++ cbs') =
  (fst (flag_run (fst (flag_run b cbs)) cbs'),
   snd (flag_run b cbs) ++ snd (flag_run (fst (flag_run b cbs)) cbs')).
Proof.
  revert b. induction cbs as [|[cb env] cbs IH]; intros b.
  - simpl. by destruct (flag_run b cbs').
  - cbn [app flag_run]. rewrite IH.
    destruct (flag_run (flag_step b cb) cbs) as [b1 i1]. cbn [fst snd].
    by rewrite app_assoc.
Qed.

Lemma flag_run_headers (b : bool) (hs : list (bytes * bytes)) (env : Env) :
  flag_run b (map (λ h, (Header (fst h) (snd h), env)) hs)
  = (b || has_messageid_header hs, []).
Proof.
  revert b. induction hs as [|h hs IH]; intros b; [by rewrite orb_false_r|].
  cbn [map flag_run]. rewrite IH. cbn [flag_step flag_injection app].
  unfold has_messageid_header. cbn [existsb]. by rewrite orb_assoc.
Qed.

Lemma flag_run_message (b : bool) (hs : list (bytes * bytes)) (env : Env) :
  flag_run b (message_callbacks hs env)
  = (false, flag_injection (b || has_messageid_header hs) Eob env).
Proof.
  unfold message_callbacks. rewrite flag_run_app, flag_run_headers.
  cbn [fst snd flag_run flag_step app]. by rewrite app_nil_r.
Qed.

Lemma flag_run_messages (msgs : list (list (bytes * bytes) * Env)) :
  flag_run false (mbind (λ m, message_callbacks (fst m) (snd m)) msgs)
  = (false,
     mbind (λ m, if has_messageid_header (fst m) then []
                 else from_option (λ val, [(bytes_lit "Message-ID", val)]) []
                                  (create_messageid (snd m))) msgs).
Proof.
  induction msgs as [|[hs env] msgs IH]; [done|].
  rewrite !bind_cons, flag_run_app, flag_run_message. cbn [fst snd orb].
  by rewrite IH.
Qed.

Lemma message_callbacks_encodable (msgs : list (list (bytes * bytes) * Env)) :
  Forall (λ m, encodable (getfqdn (snd m))) msgs →
  Forall (λ c, encodable (getfqdn (snd c)))
         (mbind (λ m, message_callbacks (fst m) (snd m)) msgs).
Proof.
  induction 1 as [|[hs env] msgs Hm _ IH]; [constructor|].
  rewrite bind_cons. apply Forall_app. split; [|done].
  unfold message_callbacks. apply Forall_app. split; [|by repeat constructor].
  apply Forall_forall. intros c Hc. apply list_elem_of_fmap in Hc as (h & -> & _). done.
Qed.

(** X4. On one connection every message is decided on its own headers:
    the injections asked for over any number of messages delivered whole
    are, message by message, none when the message holds a Message-ID
    header and the generated one when it does not, and the flag reads
    false after the last message. The connection starts with the flag
    reading false and the host names are encodable text. *)
Theorem connection_decides_each_message (w : World) (self : oid) (cmdDict : cmd_dict)
    (msgs : list (list (bytes * bytes) * Env)) :
  getattr w self "has_messageid" = Some false →
  Forall (λ m, encodable (getfqdn (snd m))) msgs →
  ∃ w' out,
    run_callbacks w self cmdDict (mbind (λ m, message_callbacks (fst m) (snd m)) msgs)
    = (Return tt, w', out)
    ∧ injections out
      = mbind (λ m, if has_messageid_header (fst m) then []
                    else from_option (λ val, [(bytes_lit "Message-ID", val)]) []
                                     (create_messageid (snd m))) msgs
    ∧ getattr w' self "has_messageid" = Some false.
Proof.
  intros Hw Henc.
  destruct (run_callbacks_flag_run w self cmdDict
              (mbind (λ m, message_callbacks (fst m) (snd m)) msgs) false Hw)
    as (w' & out & Hr & Hb & Hi); [by apply message_callbacks_encodable|].
  rewrite flag_run_messages in Hb, Hi.
  by exists w', out.
Qed.

(** ** What end of message does to the outside *)


Lemma hexdigit_printable (n : N) : n < 16 → is_printable (hexdigit n).
Proof.
  intros Hn. unfold hexdigit, is_printable. destruct (N.ltb_spec n 10); lia.
Qed.

Lemma repr_byte_printable (quote : N) (c : byte) :
  quote = 34 ∨ quote = 39 → Forall is_printable (repr_byte quote c).
Proof.
  intros Hq. unfold repr_byte.
  pose proof (Byte.to_N_bounded c) as Hc. set (n := Byte.to_N c) in *.
  assert (is_printable 92) as H92 by (unfold is_printable; lia).
  destruct ((n =? quote) || (n =? 92)) eqn:H1.
  { apply orb_true_iff in H1.
    apply Forall_cons_2; [done|]. apply Forall_cons_2; [|apply Forall_nil_2].
    unfold is_printable. destruct H1 as [H1|H1]; apply N.eqb_eq in H1; lia. }
  assert (∀ x, 32 ≤ x ≤ 126 → Forall is_printable [92; x]) as Hesc.
  { intros x Hx. apply Forall_cons_2; [done|]. by apply Forall_cons_2; [|apply Forall_nil_2]. }
  destruct (n =? 9); [apply Hesc; lia|].
  destruct (n =? 10); [apply Hesc; lia|].
  destruct (n =? 13); [apply Hesc; lia|].
  destruct ((n <? 32) || (127 <=? n)) eqn:H2.
  - apply Forall_cons_2; [done|]. apply Forall_cons_2; [unfold is_printable; lia|].
    apply Forall_cons_2; [|apply Forall_cons_2; [|apply Forall_nil_2]];
      apply hexdigit_printable.
    + apply N.Div0.div_lt_upper_bound. lia.
    + apply N.mod_lt. lia.
  - apply orb_false_iff in H2 as [Hlo Hhi].
    apply N.ltb_ge in Hlo. apply N.leb_gt in Hhi.
    apply Forall_cons_2; [unfold is_printable; lia | apply Forall_nil_2].
Qed.

Lemma bytes_repr_printable (s : bytes) : Forall is_printable (bytes_repr s).
Proof.
  unfold bytes_repr.
  assert (repr_quote s = 34 ∨ repr_quote s = 39) as Hq.
  { unfold repr_quote. destruct (_ && _); auto. }
  assert (is_printable (repr_quote s)) as Hp by (unfold is_printable; lia).
  apply Forall_cons_2; [unfold is_printable; lia|]. apply Forall_cons_2; [done|].
  apply Forall_app. split; [|by apply Forall_cons_2; [|apply Forall_nil_2]].
  generalize dependent (repr_quote s). intros q Hq _.
  induction s as [|c s IH]; [constructor|].
  change (flat_map (repr_byte q) (c :: s))
    with (repr_byte q c ++ flat_map (repr_byte q) s).
  apply Forall_app. split; [by apply repr_byte_printable | done].
Qed.

Lemma eob_log_message_printable (key val : bytes) :
  Forall is_printable (eob_log_message key val).
Proof.
  unfold eob_log_message.
  apply Forall_app. split; [apply (bool_decide_unpack _); vm_compute; exact I|].
  apply Forall_app. split; [apply bytes_repr_printable|].
  apply Forall_app. split; [apply (bool_decide_unpack _); vm_compute; exact I|].
  apply bytes_repr_printable.
Qed.

(** X6. Whatever the host name holds, an [eob] that asks for a header
    writes exactly one line to stdout first, made of printable ASCII up to
    its newline, and flushes it before the [addHeader] call; an [eob] that
    asks for none makes no call at all. *)
Theorem eob_writes_one_printable_line (w : World) (self : oid) (cmdDict : cmd_dict)
    (env : Env) :
  snd (eob w self cmdDict env) = []
  ∨ ∃ line val,
      snd (eob w self cmdDict env)
      = [StdoutWrite (line ++ [10]); StdoutFlush; AddHeader (bytes_lit "Message-ID") val]
      ∧ Forall is_printable line
      ∧ create_messageid env = Some val.
Proof.
  unfold eob. destruct (getattr w self "has_messageid") as [[]|]; cbn [snd]; auto.
  destruct (create_messageid env) as [val|]; cbn [snd]; auto.
  right. exists (eob_log_message (bytes_lit "Message-ID") val), val.
  split; [done|]. split; [apply eob_log_message_printable | done].
Qed.

(** ** Worlds the callbacks can reach *)

Lemma dispatch_cls_dict (w : World) (self : oid) (cmdDict : cmd_dict) (env : Env)
    (cb : callback) :
  cls_dict (snd (fst (dispatch w self cmdDict env cb))) = cls_dict w.
Proof. by destruct (dispatch_frame w self cmdDict env cb) as [-> | [v ->]]. Qed.

Lemma dispatch_inst_dict_other (w : World) (i j : oid) (cmdDict : cmd_dict) (env : Env)
    (cb : callback) :
  i ≠ j → inst_dict (snd (fst (dispatch w i cmdDict env cb))) j = inst_dict w j.
Proof.
  intros Hij. destruct (dispatch_frame w i cmdDict env cb) as [-> | [v ->]]; [done|].
  by apply inst_dict_setattr_ne.
Qed.

Lemma run_schedule_cons (w : World) (cmdDict : cmd_dict) (s : oid * callback * Env)
    (sched : list (oid * callback * Env)) :
  run_schedule w cmdDict (s :: sched)
  = run_schedule (snd (fst (dispatch w (fst (fst s)) cmdDict (snd s) (snd (fst s)))))
                 cmdDict sched.
Proof. reflexivity. Qed.

Lemma run_schedule_cls_dict (w : World) (cmdDict : cmd_dict)
    (sched : list (oid * callback * Env)) :
  cls_dict (run_schedule w cmdDict sched) = cls_dict w.
Proof.
  revert w. induction sched as [|s sched IH]; intros w; [done|].
  by rewrite run_schedule_cons, IH, dispatch_cls_dict.
Qed.

Lemma run_schedule_inst_dict_other (w : World) (cmdDict : cmd_dict) (j : oid)
    (sched : list (oid * callback * Env)) :
  j ∉ (λ s, fst (fst s)) <$> sched →
  inst_dict (run_schedule w cmdDict sched) j = inst_dict w j.
Proof.
  revert w. induction sched as [|s sched IH]; intros w Hj; [done|].
  rewrite fmap_cons in Hj. apply not_elem_of_cons in Hj as [Hne Hj].
  rewrite run_schedule_cons, IH by done. by apply dispatch_inst_dict_other.
Qed.

(** X7. Through any interleaving of callbacks on any sessions, starting
    from the loaded module, the class keeps its attribute as declared;
    hence every session, old or new, always has a flag to read, a session
    that has received no callback yet reads false, and no callback ever
    raises [AttributeError]. *)
Theorem reachable_worlds_keep_the_class (cmdDict : cmd_dict)
    (sched : list (oid * callback * Env)) (j : oid) :
  cls_dict (run_schedule initial_world cmdDict sched) = MessageIDMilter_dict
  ∧ is_Some (getattr (run_schedule initial_world cmdDict sched) j "has_messageid")
  ∧ (getattr (run_schedule initial_world cmdDict sched) j "has_messageid" = Some false
     ∨ j ∈ (λ s, fst (fst s)) <$> sched)
  ∧ ∀ env cb name,
      fst (fst (dispatch (run_schedule initial_world cmdDict sched) j cmdDict env cb))
      ≠ Raise (AttributeError name).
Proof.
  set (w := run_schedule initial_world cmdDict sched).
  assert (cls_dict w = MessageIDMilter_dict) as Hcls by apply run_schedule_cls_dict.
  assert (is_Some (getattr w j "has_messageid")) as Hsome.
  { unfold getattr. rewrite Hcls. by destruct (inst_dict w j !! "has_messageid"). }
  split; [done|]. split; [done|]. split.
  - destruct (decide (j ∈ (λ s, fst (fst s)) <$> sched)) as [Hin|Hnin]; [by right|left].
    unfold getattr. unfold w. rewrite run_schedule_inst_dict_other by done.
    by rewrite run_schedule_cls_dict.
  - intros env cb name. destruct Hsome as [b Hb].
    destruct cb as [key val| | |]; unfold dispatch; try done.
    unfold eob. rewrite Hb. destruct b; [done|]. by destruct (create_messageid env).
Qed.

(** ** Construction *)

(** X8. With the defaults, and the no-headers flag being one of the flags
    of [SMFIP_ALLPROTOS], the protocol mask handed to libmilter is
    [SMFIP_ALLPROTOS] with exactly the no-headers flag taken out: header
    delivery is asked for and every other flag stands. The option mask
    defaults to zero. *)
Theorem MessageIDMilter_init_defaults (SMFIP_ALLPROTOS SMFIP_NOHDRS : N) :
  N.land SMFIP_ALLPROTOS SMFIP_NOHDRS = SMFIP_NOHDRS →
  fst (MessageIDMilter_init SMFIP_ALLPROTOS SMFIP_NOHDRS None None) = 0
  ∧ N.land (snd (MessageIDMilter_init SMFIP_ALLPROTOS SMFIP_NOHDRS None None)) SMFIP_NOHDRS = 0
  ∧ N.lor (snd (MessageIDMilter_init SMFIP_ALLPROTOS SMFIP_NOHDRS None None)) SMFIP_NOHDRS
    = SMFIP_ALLPROTOS.
Proof.
  intros Hin. cbn [MessageIDMilter_init fst snd default].
  assert (∀ i, N.testbit SMFIP_ALLPROTOS i && N.testbit SMFIP_NOHDRS i
               = N.testbit SMFIP_NOHDRS i) as Hbit.
  { intros i. by rewrite <- N.land_spec, Hin. }
  split; [done|]. split; apply N.bits_inj; intros i; specialize (Hbit i).
  - rewrite N.land_spec, N.lxor_spec, N.bits_0.
    by destruct (N.testbit SMFIP_ALLPROTOS i), (N.testbit SMFIP_NOHDRS i).
  - rewrite N.lor_spec, N.lxor_spec.
    by destruct (N.testbit SMFIP_ALLPROTOS i), (N.testbit SMFIP_NOHDRS i).
Qed.

(** ** The process *)

Lemma factory_closes_app (calls calls' : list proc_event) :
  factory_closes (calls ++ calls') = (factory_closes calls + factory_closes calls')%nat.
Proof. unfold factory_closes. by rewrite List.filter_app, length_app. Qed.

(** X9. [run_messageidmilter] itself closes the factory once when
    [factory.run()] ends with an instance of [Exception], and not at all
    when it returns or ends with any other exception; closes made while
    [factory.run()] was running are counted apart. Whatever [os.mkdir]
    did makes no difference. *)
Theorem run_messageidmilter_closes (SMFIF_ADDHDRS : N) (exc_info_str : pyexc → pystr)
    (mkdir : option oserror) (during : list proc_event) (ending : option pyexc) :
  factory_closes (fst (run_messageidmilter SMFIF_ADDHDRS exc_info_str mkdir (during, ending)))
  = (factory_closes during
     + match ending with
       | Some e => if is_Exception e then 1 else 0
       | None => 0
       end)%nat.
Proof.
  unfold run_messageidmilter. rewrite run_messageidmilter_mkdir_never_fails.
  cbn [fst snd]. destruct ending as [e|]; [destruct (is_Exception e)|];
    cbn [fst]; rewrite ?factory_closes_app; cbn; lia.
Qed.


(** X11. A signal among SIGINT, SIGQUIT and SIGTERM that arrives while
    [factory.run()] is blocked ends the function with [SystemExit(1)]; the
    factory is closed exactly once, by the handler, as the last call made,
    and nothing is written to stderr, because the except clause does not
    catch [SystemExit]. *)
Theorem run_messageidmilter_signal_path (SMFIF_ADDHDRS : N)
    (exc_info_str : pyexc → pystr) (mkdir : option oserror) (signum : signal_number) :
  ∃ before,
    run_messageidmilter SMFIF_ADDHDRS exc_info_str mkdir (signalled signum)
    = (before ++ [FactoryClose], Some (SystemExit 1))
    ∧ run_messageidmilter SMFIF_ADDHDRS exc_info_str mkdir ([], None) = (before, None)
    ∧ factory_closes before = 0%nat.
Proof.
  unfold run_messageidmilter. rewrite run_messageidmilter_mkdir_never_fails.
  cbn [fst snd signalled sighandler is_Exception]. eexists.
  split; [reflexivity|]. split; [by rewrite app_nil_r | reflexivity].
Qed.

(** ** UTF-8 reads back *)

Lemma to_N_byte_of_N (n : N) : n < 256 → Byte.to_N (byte_of_N n) = n.
Proof.
  intros Hn. unfold byte_of_N.
  destruct (Byte.of_N n) as [b|] eqn:Hb; [by apply Byte.to_of_N|].
  apply Byte.of_N_None_iff in Hb. lia.
Qed.

(** Bits that do not overlap add up. *)
Lemma lor_shiftl_low (x l k : N) : l < 2 ^ k → N.lor (N.shiftl x k) l = x * 2 ^ k + l.
Proof.
  intros Hl. rewrite <- N.shiftl_mul_pow2.
  rewrite N.add_nocarry_lxor, N.lxor_lor; [done|..];
    apply N.bits_inj; intros i; rewrite N.land_spec, N.bits_0;
    (destruct (N.lt_ge_cases i k) as [Hi|Hi];
     [by rewrite N.shiftl_spec_low
     |rewrite <- (N.mod_small l (2 ^ k)) by done;
      by rewrite N.mod_pow2_bits_high, andb_false_r]).
Qed.

Lemma lor_high_low (hi l k : N) :
  l < 2 ^ k → hi mod 2 ^ k = 0 → N.lor hi l = hi + l.
Proof.
  intros Hl Hhi.
  assert (hi = N.shiftl (hi / 2 ^ k) k) as ->.
  { rewrite N.shiftl_mul_pow2. pose proof (N.Div0.div_mod hi (2 ^ k)). lia. }
  rewrite lor_shiftl_low by done. by rewrite N.shiftl_mul_pow2.
Qed.

Lemma land_low (x k : N) : N.land x (N.ones k) = x mod 2 ^ k.
Proof. apply N.land_ones. Qed.

(** The lead byte of a sequence and the payload it carries. *)
Lemma utf8_lead (tag h k : N) :
  h < 2 ^ k → tag mod 2 ^ k = 0 → tag + 2 ^ k ≤ 256 →
  Byte.to_N (byte_of_N (N.lor tag h)) = tag + h
  ∧ N.land (tag + h) (N.ones k) = h.
Proof.
  intros Hh Htag Hmax. rewrite (lor_high_low tag h k) by done.
  split; [apply to_N_byte_of_N; lia|].
  rewrite N.land_ones, N.Div0.add_mod, Htag, N.add_0_l, N.Div0.mod_mod.
  by apply N.mod_small.
Qed.

(** A continuation byte carries the low six bits of what it was made from. *)
Lemma utf8_cont_made (x : N) :
  utf8_cont (byte_of_N (N.lor 0x80 (N.land x 0x3F))) = Some (x mod 64).
Proof.
  change 0x3F with (N.ones 6). rewrite N.land_ones. change (2 ^ 6) with 64.
  pose proof (N.mod_lt x 64 ltac:(done)) as Hl.
  destruct (utf8_lead 0x80 (x mod 64) 6) as [Hb Hp]; [done..|].
  unfold utf8_cont. rewrite Hb.
  destruct (N.leb_spec 0x80 (0x80 + x mod 64)); [|lia].
  destruct (N.ltb_spec (0x80 + x mod 64) 0xC0); [|lia].
  cbn [andb]. f_equal. exact Hp.
Qed.

Lemma utf8_char_decode (c : N) (e : bytes) :
  utf8_char c = Some e → decode_utf8 e = Some [c].
Proof.
  unfold utf8_char.
  destruct (N.ltb_spec c 0x80) as [H1|H1].
  { intros [= <-]. cbn [decode_utf8]. rewrite to_N_byte_of_N by lia.
    destruct (N.ltb_spec c 0x80); [done | lia]. }
  destruct (N.ltb_spec c 0x800) as [H2|H2].
  { intros [= <-]. cbn [decode_utf8].
    rewrite N.shiftr_div_pow2. change (2 ^ 6) with 64.
    pose proof (N.Div0.div_mod c 64) as Hc.
    pose proof (N.mod_lt c 64 ltac:(done)) as Hl.
    assert (c / 64 < 32) as Hh by (apply N.Div0.div_lt_upper_bound; lia).
    destruct (utf8_lead 0xC0 (c / 64) 5) as [Hb Hp]; [done..|].
    rewrite Hb, utf8_cont_made. cbn [mbind option_bind].
    change 0x1F with (N.ones 5). rewrite Hp.
    rewrite (lor_shiftl_low (c / 64) (c mod 64) 6) by done. change (2 ^ 6) with 64.
    replace (c / 64 * 64 + c mod 64) with c by lia.
    destruct (N.ltb_spec (0xC0 + c / 64) 0x80); [lia|].
    destruct (N.ltb_spec (0xC0 + c / 64) 0xC0); [lia|].
    destruct (N.ltb_spec (0xC0 + c / 64) 0xE0); [|lia].
    destruct (N.ltb_spec c 0x80); [lia | done]. }
  destruct (N.ltb_spec c 0x10000) as [H3|H3].
  { destruct ((0xD800 <=? c) && (c <=? 0xDFFF)) eqn:Hsur; [done|].
    intros [= <-]. cbn [decode_utf8].
    rewrite !N.shiftr_div_pow2. change (2 ^ 6) with 64. change (2 ^ 12) with 4096.
    pose proof (N.Div0.div_mod c 64) as Hc.
    pose proof (N.Div0.div_mod (c / 64) 64) as Hc'.
    pose proof (N.mod_lt c 64 ltac:(done)) as Hl.
    pose proof (N.mod_lt (c / 64) 64 ltac:(done)) as Hl'.
    assert (c / 4096 = c / 64 / 64) as Hdd by (by rewrite N.Div0.div_div).
    assert (c / 4096 < 16) as Hh by (apply N.Div0.div_lt_upper_bound; lia).
    destruct (utf8_lead 0xE0 (c / 4096) 4) as [Hb Hp]; [done..|].
    rewrite Hb, !utf8_cont_made. cbn [mbind option_bind].
    change 0x0F with (N.ones 4). rewrite Hp.
    rewrite (lor_shiftl_low (c / 64 mod 64) (c mod 64) 6) by done.
    change (2 ^ 6) with 64.
    rewrite (lor_shiftl_low (c / 4096) (c / 64 mod 64 * 64 + c mod 64) 12)
      by (change (2 ^ 12) with 4096; lia).
    change (2 ^ 12) with 4096.
    replace (c / 4096 * 4096 + (c / 64 mod 64 * 64 + c mod 64)) with c by lia.
    rewrite Hsur.
    destruct (N.ltb_spec (0xE0 + c / 4096) 0x80); [lia|].
    destruct (N.ltb_spec (0xE0 + c / 4096) 0xC0); [lia|].
    destruct (N.ltb_spec (0xE0 + c / 4096) 0xE0); [lia|].
    destruct (N.ltb_spec (0xE0 + c / 4096) 0xF0); [|lia].
    destruct (N.ltb_spec c 0x800); [lia | done]. }
  destruct (N.ltb_spec c 0x110000) as [H4|H4]; [|done].
  intros [= <-]. cbn [decode_utf8].
  rewrite !N.shiftr_div_pow2.
  change (2 ^ 6) with 64. change (2 ^ 12) with 4096. change (2 ^ 18) with 262144.
  pose proof (N.Div0.div_mod c 64) as Hc.
  pose proof (N.Div0.div_mod (c / 64) 64) as Hc'.
  pose proof (N.Div0.div_mod (c / 4096) 64) as Hc''.
  pose proof (N.mod_lt c 64 ltac:(done)) as Hl.
  pose proof (N.mod_lt (c / 64) 64 ltac:(done)) as Hl'.
  pose proof (N.mod_lt (c / 4096) 64 ltac:(done)) as Hl''.
  assert (c / 4096 = c / 64 / 64) as Hdd by (by rewrite N.Div0.div_div).
  assert (c / 262144 = c / 4096 / 64) as Hddd by (by rewrite N.Div0.div_div).
  assert (c / 262144 < 8) as Hh by (apply N.Div0.div_lt_upper_bound; lia).
  destruct (utf8_lead 0xF0 (c / 262144) 3) as [Hb Hp]; [done..|].
  rewrite Hb, !utf8_cont_made. cbn [mbind option_bind].
  change 0x07 with (N.ones 3). rewrite Hp.
  rewrite (lor_shiftl_low (c / 64 mod 64) (c mod 64) 6) by done.
  change (2 ^ 6) with 64.
  rewrite (lor_shiftl_low (c / 4096 mod 64) (c / 64 mod 64 * 64 + c mod 64) 12)
    by (change (2 ^ 12) with 4096; lia).
  change (2 ^ 12) with 4096.
  rewrite (lor_shiftl_low (c / 262144)
             (c / 4096 mod 64 * 4096 + (c / 64 mod 64 * 64 + c mod 64)) 18)
    by (change (2 ^ 18) with 262144; lia).
  change (2 ^ 18) with 262144.
  replace (c / 262144 * 262144 + (c / 4096 mod 64 * 4096 + (c / 64 mod 64 * 64 + c mod 64)))
    with c by lia.
  destruct (N.ltb_spec (0xF0 + c / 262144) 0x80); [lia|].
  destruct (N.ltb_spec (0xF0 + c / 262144) 0xC0); [lia|].
  destruct (N.ltb_spec (0xF0 + c / 262144) 0xE0); [lia|].
  destruct (N.ltb_spec (0xF0 + c / 262144) 0xF0); [lia|].
  destruct (N.ltb_spec (0xF0 + c / 262144) 0xF8); [|lia].
  destruct (N.ltb_spec c 0x10000); [lia|].
  destruct (N.leb_spec 0x110000 c); [lia | done].
Qed.

Lemma decode_utf8_nil_inv (bs : bytes) : decode_utf8 bs = Some [] → bs = [].
Proof.
  assert (∀ (c : N) (o : option pystr), cons c <$> o ≠ Some []) as Hcons.
  { intros c o H. by apply fmap_Some in H as (l & _ & [=]). }
  destruct bs as [|b0 r0]; [done|]. cbn [decode_utf8]. intros H. exfalso. revert H.
  destruct (Byte.to_N b0 <? 0x80); [apply Hcons|].
  destruct (Byte.to_N b0 <? 0xC0); [done|].
  destruct (Byte.to_N b0 <? 0xE0).
  { destruct r0 as [|b1 r1]; [done|].
    destruct (utf8_cont b1); [|done]. cbn [mbind option_bind].
    case_match; [done | apply Hcons]. }
  destruct (Byte.to_N b0 <? 0xF0).
  { destruct r0 as [|b1 [|b2 r2]]; [done..|].
    destruct (utf8_cont b1); [|done]. destruct (utf8_cont b2); [|done].
    cbn [mbind option_bind]. case_match; [done | apply Hcons]. }
  destruct (Byte.to_N b0 <? 0xF8); [|done].
  destruct r0 as [|b1 [|b2 [|b3 r3]]]; [done..|].
  destruct (utf8_cont b1); [|done]. destruct (utf8_cont b2); [|done].
  destruct (utf8_cont b3); [|done].
  cbn [mbind option_bind]. case_match; [done | apply Hcons].
Qed.

(** What reads as one code point reads as that code point in front of
    anything. *)
Lemma decode_utf8_one_app (e r : bytes) (c : N) :
  decode_utf8 e = Some [c] → decode_utf8 (e ++ r) = cons c <$> decode_utf8 r.
Proof.
  destruct e as [|b0 r0]; [done|]. cbn [decode_utf8 app].
  destruct (Byte.to_N b0 <? 0x80).
  { intros Hd. apply fmap_Some in Hd as (l & Hl & [= -> <-]).
    apply decode_utf8_nil_inv in Hl as ->. done. }
  destruct (Byte.to_N b0 <? 0xC0); [done|].
  destruct (Byte.to_N b0 <? 0xE0).
  { destruct r0 as [|b1 r1]; [done|]. cbn [app].
    destruct (utf8_cont b1) as [c1|]; [|done]. cbn [mbind option_bind].
    case_match; [done|].
    intros Hd. apply fmap_Some in Hd as (l & Hl & [= -> <-]).
    apply decode_utf8_nil_inv in Hl as ->. done. }
  destruct (Byte.to_N b0 <? 0xF0).
  { destruct r0 as [|b1 [|b2 r2]]; [done..|]. cbn [app].
    destruct (utf8_cont b1) as [c1|]; [|done].
    destruct (utf8_cont b2) as [c2|]; [|done]. cbn [mbind option_bind].
    case_match; [done|].
    intros Hd. apply fmap_Some in Hd as (l & Hl & [= -> <-]).
    apply decode_utf8_nil_inv in Hl as ->. done. }
  destruct (Byte.to_N b0 <? 0xF8); [|done].
  destruct r0 as [|b1 [|b2 [|b3 r3]]]; [done..|]. cbn [app].
  destruct (utf8_cont b1) as [c1|]; [|done].
  destruct (utf8_cont b2) as [c2|]; [|done].
  destruct (utf8_cont b3) as [c3|]; [|done]. cbn [mbind option_bind].
  case_match; [done|].
  intros Hd. apply fmap_Some in Hd as (l & Hl & [= -> <-]).
  apply decode_utf8_nil_inv in Hl as ->. done.
Qed.

Lemma decode_encode_utf8 (s : pystr) (bs : bytes) :
  encode_utf8 s = Some bs → decode_utf8 bs = Some s.
Proof.
  revert bs. induction s as [|c s IH]; intros bs; [by intros [= <-]|].
  cbn [encode_utf8].
  destruct (utf8_char c) as [e|] eqn:He; [|done].
  destruct (encode_utf8 s) as [r|]; [|done]. intros [= <-].
  rewrite (decode_utf8_one_app e r c) by by apply utf8_char_decode.
  by rewrite (IH r).
Qed.

Lemma encode_utf8_inj (s t : pystr) (bs : bytes) :
  encode_utf8 s = Some bs → encode_utf8 t = Some bs → s = t.
Proof.
  intros Hs Ht. apply decode_encode_utf8 in Hs, Ht. congruence.
Qed.

(** ** The identifier, byte by byte *)

Lemma str_lit_inj (s t : string) : str_lit s = str_lit t → s = t.
Proof.
  unfold str_lit. intros H.
  rewrite <- (string_of_list_ascii_of_string s), <- (string_of_list_ascii_of_string t).
  f_equal. revert H. generalize (list_ascii_of_string s) (list_ascii_of_string t).
  induction l as [|a l IH]; intros [|a' l'] H; simplify_eq/=; [done|].
  f_equal; [|by apply IH].
  rewrite <- (ascii_N_embedding a), <- (ascii_N_embedding a'). congruence.
Qed.

Lemma int_str_inj (z z' : Z) : int_str z = int_str z' → z = z'.
Proof.
  unfold int_str. intros H. apply str_lit_inj in H.
  assert (∀ z, NilZero.int_of_string (NilZero.string_of_int (Z.to_int z)) = Some (Z.to_int z))
    as Hread.
  { intros y. apply NilZero.isi; destruct y; simpl; intros [= Hnil];
      try discriminate; by apply DecimalPos.Unsigned.to_uint_nonnil in Hnil. }
  apply DecimalZ.to_int_inj.
  pose proof (Hread z) as Hz. rewrite H, Hread in Hz. congruence.
Qed.

Lemma int_str_no_dot (z : Z) : 46 ∉ int_str z.
Proof.
  assert (∀ d, 46 ∉ str_lit (NilEmpty.string_of_uint d)) as Hu.
  { intros d Hin. pose proof (uint_digits d) as Hd.
    rewrite Forall_forall in Hd. apply Hd in Hin. unfold is_decimal_digit in Hin. lia. }
  assert (∀ d, 46 ∉ str_lit (NilZero.string_of_uint d)) as Hu0.
  { intros [] Hin; try (by apply (Hu _ Hin)). by apply list_elem_of_singleton in Hin. }
  unfold int_str. destruct z as [|p|p]; simpl.
  - intros Hin. by apply list_elem_of_singleton in Hin.
  - apply Hu0.
  - intros Hin. apply elem_of_cons in Hin as [Hin|Hin]; [done|]. by apply (Hu0 _ Hin).
Qed.

Lemma bytes_hex_no_at (s : bytes) : 64 ∉ bytes_hex s.
Proof.
  intros Hin. pose proof (bytes_hex_lower_hex s) as Hh.
  rewrite Forall_forall in Hh. apply Hh in Hin. unfold is_lower_hex in Hin. lia.
Qed.

Lemma split_at_first (x : N) (a a' b b' : pystr) :
  x ∉ a → x ∉ a' → a ++ x :: b = a' ++ x :: b' → a = a' ∧ b = b'.
Proof.
  revert a'. induction a as [|y a IH]; intros [|y' a'] Ha Ha' Heq; cbn [app] in Heq.
  - by injection Heq as ->.
  - injection Heq as -> _. by apply not_elem_of_cons in Ha' as [? _].
  - injection Heq as -> _. by apply not_elem_of_cons in Ha as [? _].
  - injection Heq as -> Htl.
    apply not_elem_of_cons in Ha as [_ Ha]. apply not_elem_of_cons in Ha' as [_ Ha'].
    by destruct (IH a' Ha Ha' Htl) as [-> ->].
Qed.


(** X13. The identifier determines what it was made from: two calls
    return the same identifier only if the clock reading, the first random
    draw and the domain token all coincide. *)
Theorem create_messageid_determines (env env' : Env) (m : bytes) :
  create_messageid env = Some m →
  create_messageid env' = Some m →
  time_us env = time_us env'
  ∧ urandom_1 env = urandom_1 env'
  ∧ domain_token (getfqdn env) (urandom_2 env) = domain_token (getfqdn env') (urandom_2 env').
Proof.
  rewrite !create_messageid_unfold. intros H H'.
  pose proof (encode_utf8_inj _ _ _ H H') as Heq.
  apply app_inv_head in Heq.
  change (str_lit ".") with [46] in Heq. change (str_lit "@") with [64] in Heq.
  cbn [app] in Heq.
  apply split_at_first in Heq as [Htime Heq]; try apply int_str_no_dot.
  apply split_at_first in Heq as [Hrand Heq]; try apply bytes_hex_no_at.
  apply app_inv_tail in Heq.
  split; [by apply int_str_inj|]. split; [by apply bytes_hex_inj | done].
Qed.

(** X14. What [create_messageid] returns is well-formed UTF-8: a strict
    reader gets back exactly the text that was composed. *)
Theorem create_messageid_decodes (env : Env) (m : bytes) :
  create_messageid env = Some m →
  decode_utf8 m
  = Some (str_lit " <" ++ int_str (time_us env) ++ str_lit "."
          ++ bytes_hex (urandom_1 env) ++ str_lit "@"
          ++ domain_token (getfqdn env) (urandom_2 env) ++ str_lit ">").
Proof. rewrite create_messageid_unfold. apply decode_encode_utf8. Qed.

(** ** The further properties at sample inputs *)

Lemma header_ignores_other_lengths_witness :
  length (bytes_lit "Message-ID ") ≠ 10%nat
  ∧ header initial_world 0%nat (bytes_lit "Message-ID ") (bytes_lit "<x@y>") []
    = (initial_world, CONTINUE).
Proof.
  assert (length (bytes_lit "Message-ID ") ≠ 10%nat) as Hlen by (vm_compute; discriminate).
  split; [exact Hlen|].
  apply (header_ignores_other_lengths initial_world 0%nat (bytes_lit "Message-ID ")
           (bytes_lit "<x@y>") [] Hlen).
Defined.

Lemma session_follows_flag_machine_witness :
  getattr initial_world 0%nat "has_messageid" = Some false
  ∧ Forall (λ c, encodable (getfqdn (snd c))) sample_callbacks
  ∧ ∃ w' out,
      run_callbacks initial_world 0%nat [] sample_callbacks = (Return tt, w', out)
      ∧ getattr w' 0%nat "has_messageid" = Some (fst (flag_run false sample_callbacks))
      ∧ injections out = snd (flag_run false sample_callbacks).
Proof.
  assert (Forall (λ c, encodable (getfqdn (snd c))) sample_callbacks) as Henc
    by (apply (bool_decide_unpack _); vm_compute; exact I).
  split; [reflexivity|]. split; [exact Henc|].
  apply (session_follows_flag_machine initial_world 0%nat [] sample_callbacks false);
    [reflexivity | exact Henc].
Defined.

Example sample_callbacks_inject_once :
  flag_run false sample_callbacks = (false, [(bytes_lit "Message-ID", sample_id)]).
Proof. reflexivity. Qed.

Lemma connection_decides_each_message_witness :
  getattr initial_world 0%nat "has_messageid" = Some false
  ∧ Forall (λ m, encodable (getfqdn (snd m))) sample_messages
  ∧ ∃ w' out,
      run_callbacks initial_world 0%nat []
        (mbind (λ m, message_callbacks (fst m) (snd m)) sample_messages)
      = (Return tt, w', out)
      ∧ injections out
        = mbind (λ m, if has_messageid_header (fst m) then []
                      else from_option (λ val, [(bytes_lit "Message-ID", val)]) []
                                       (create_messageid (snd m))) sample_messages
      ∧ getattr w' 0%nat "has_messageid" = Some false.
Proof.
  assert (Forall (λ m, encodable (getfqdn (snd m))) sample_messages) as Henc
    by (apply (bool_decide_unpack _); vm_compute; exact I).
  split; [reflexivity|]. split; [exact Henc|].
  apply (connection_decides_each_message initial_world 0%nat [] sample_messages);
    [reflexivity | exact Henc].
Defined.


Lemma transaction_ends_false_witness :
  is_Some (getattr initial_world 0%nat "has_messageid")
  ∧ getattr (snd (fst (transaction initial_world 0%nat [] sample_env_surrogate plain_headers)))
      0%nat "has_messageid" = Some false.
Proof.
  assert (is_Some (getattr initial_world 0%nat "has_messageid")) as Hsome
    by (exists false; reflexivity).
  split; [exact Hsome|].
  apply (transaction_ends_false 0%nat [] initial_world sample_env_surrogate plain_headers
           Hsome).
Defined.

Lemma MessageIDMilter_init_defaults_witness :
  N.land 0x7F 0x20 = 0x20
  ∧ fst (MessageIDMilter_init 0x7F 0x20 None None) = 0
  ∧ N.land (snd (MessageIDMilter_init 0x7F 0x20 None None)) 0x20 = 0
  ∧ N.lor (snd (MessageIDMilter_init 0x7F 0x20 None None)) 0x20 = 0x7F.
Proof.
  split; [reflexivity|].
  apply (MessageIDMilter_init_defaults 0x7F 0x20). reflexivity.
Defined.


Lemma create_messageid_determines_witness :
  create_messageid sample_env = Some sample_id
  ∧ create_messageid sample_env = Some sample_id
  ∧ time_us sample_env = time_us sample_env
  ∧ urandom_1 sample_env = urandom_1 sample_env
  ∧ domain_token (getfqdn sample_env) (urandom_2 sample_env)
    = domain_token (getfqdn sample_env) (urandom_2 sample_env).
Proof.
  split; [reflexivity|]. split; [reflexivity|].
  apply (create_messageid_determines sample_env sample_env sample_id); reflexivity.
Defined.

Lemma create_messageid_decodes_witness :
  create_messageid sample_env = Some sample_id
  ∧ decode_utf8 sample_id
    = Some (str_lit " <" ++ int_str (time_us sample_env) ++ str_lit "."
            ++ bytes_hex (urandom_1 sample_env) ++ str_lit "@"
            ++ domain_token (getfqdn sample_env) (urandom_2 sample_env) ++ str_lit ">").
Proof.
  split; [reflexivity|].
  apply (create_messageid_decodes sample_env sample_id). reflexivity.
Defined.

(** A name that is not UTF-8 makes the generator, and with it [eob], raise. *)
Example eob_surrogate_host :
  eob initial_world 0%nat [] sample_env_surrogate
  = (Raise UnicodeEncodeError, initial_world, []).
Proof. reflexivity. Qed.

(** A host name with a non-ASCII letter goes into the identifier as UTF-8. *)
Example create_messageid_non_ascii_host :
  create_messageid {| time_us := 5; urandom_1 := [x00]; urandom_2 := []; getfqdn := [0xE9] |}
  = Some (bytes_lit " <5.00@" ++ [xc3; xa9] ++ bytes_lit ">").
Proof. reflexivity. Qed.
